(** * nclient4: the raw-socket UDP connection of the DHCPv4 client

    A shallow embedding of [dhcpv4/nclient4/conn_unix.go]: the receive loop
    [BroadcastRawUDPConn.ReadFrom], the bound-address filter [udpMatch], the
    two [WriteTo] methods and the link-address resolution [getHwAddr] /
    [arpResolve].

    Go values are modelled as follows.
    - [int] is [Z]; [uint8] and [uint16] results are reduced modulo their
      width where the arithmetic can leave the range.
    - A byte is [Byte.byte]; a slice is a window ([len]) over the elements
      up to its capacity ([arr]), so that re-slicing past the length and
      indexing past the length behave as the Go runtime makes them: the
      first is allowed up to the capacity, the second panics.
    - A run-time panic is the [Panic] result of the [res] monad.
    - The raw socket, the kernel neighbour table, route lookup and the ARP
      client are the environment: the socket's incoming frames are a list
      consumed by reads, every other call is answered by an [Env] record
      and recorded in a trace of events. *)

From Stdlib Require Import String.
From Stdlib Require Import ZArith List Bool Lia.
From Stdlib Require Import Strings.Byte.
Import ListNotations.
Local Open Scope Z_scope.

(** ** Run-time results *)

Inductive res (A : Type) : Type :=
| Val (a : A)
| Panic.
Arguments Val {A} a.
Arguments Panic {A}.

Definition res_bind {A B : Type} (m : res A) (k : A -> res B) : res B :=
  match m with
  | Val a => k a
  | Panic => Panic
  end.

Declare Scope res_scope.
Delimit Scope res_scope with res.
Notation "x <- m ;; k" := (res_bind m (fun x => k))
  (at level 61, m at next level, right associativity) : res_scope.
Notation "' p <- m ;; k" := (res_bind m (fun x => match x with p => k end))
  (at level 61, p pattern, m at next level, right associativity) : res_scope.

Definition byte_to_Z (x : byte) : Z := Z.of_N (Byte.to_N x).

Definition zlen {A : Type} (l : list A) : Z := Z.of_nat (length l).

(** ** Go slices of bytes *)

Module slice.

Record t : Type := mk { arr : list byte; len : nat }.

Definition cap (s : t) : nat := length (arr s).

(** The elements the slice shows: [s[0]] .. [s[len-1]]. *)
Definition elems (s : t) : list byte := firstn (len s) (arr s).

(** The nil slice. *)
Definition nil : t := mk [] 0.

(** [make([]byte, n)]. *)
Definition make (n : nat) : t := mk (repeat x00 n) n.

(** [s[i]]: panics outside [0 <= i < len(s)]. *)
Definition index (s : t) (i : Z) : res byte :=
  if (0 <=? i) && (i <? Z.of_nat (len s))
  then Val (nth (Z.to_nat i) (arr s) x00)
  else Panic.

(** [s[lo:hi]]: panics outside [0 <= lo <= hi <= cap(s)]. *)
Definition reslice (s : t) (lo hi : Z) : res t :=
  if (0 <=? lo) && (lo <=? hi) && (hi <=? Z.of_nat (cap s))
  then Val (mk (skipn (Z.to_nat lo) (arr s)) (Z.to_nat (hi - lo)))
  else Panic.

(** [s[lo:]], whose upper bound is [len(s)]. *)
Definition from (s : t) (lo : Z) : res t := reslice s lo (Z.of_nat (len s)).

(** [s[:hi]]. *)
Definition upto (s : t) (hi : Z) : res t := reslice s 0 hi.

(** [copy(dst, src)] on the caller's buffer, given by its elements: the
    number of bytes copied and the buffer afterwards. *)
Definition copy (dst : list byte) (src : t) : Z * list byte :=
  let n := Nat.min (length dst) (len src) in
  (Z.of_nat n, firstn n (elems src) ++ skipn n dst).

End slice.

(** [binary.BigEndian.Uint16(b)]: [_ = b[1]] (the bounds check), then
    [uint16(b[1]) | uint16(b[0])<<8]. *)
Definition Uint16 (b : slice.t) : res Z :=
  (b1 <- slice.index b 1 ;;
   b0 <- slice.index b 0 ;;
   Val (Z.lor (byte_to_Z b1) (Z.shiftl (byte_to_Z b0) 8)))%res.

(** ** uio.Buffer (github.com/u-root/uio)

    The imported buffer: [Has(n)] is [len(data) >= n]; [Consume(n)] returns
    nil when [Has(n)] fails and otherwise returns [data[:n]] and advances
    [data] to [data[n:]]. *)

Module uio.

Record Buffer : Type := mk { data : slice.t }.

Definition NewBigEndianBuffer (b : slice.t) : Buffer := mk b.

Definition Has (b : Buffer) (n : Z) : bool :=
  n <=? Z.of_nat (slice.len (data b)).

Definition Data (b : Buffer) : slice.t := data b.

Definition Consume (b : Buffer) (n : Z) : res (slice.t * Buffer) :=
  if Has b n
  then (rval <- slice.upto (data b) n ;;
        rest <- slice.from (data b) n ;;
        Val (rval, mk rest))%res
  else Val (slice.nil, b).

End uio.

(** ** Header views and their constants

    Modelled from the spec: the [ipv4] and [udp] byte-slice views, their
    accessors and the size constants are declared in the package's
    [ipv4.go], which is not among the sources.  Sections 3, 4.1 and 6 of
    the specification fix them: a 20-byte minimum IPv4 header whose length
    is the low nibble of byte 0 in 32-bit words (at most 15 words, 60
    bytes), total length at offset 2, protocol at offset 9, source address
    at 12 and destination address at 16; an 8-byte UDP header with source
    port at 0 and destination port at 2; UDP is protocol 17.  Each accessor
    indexes or re-slices the view, so it panics exactly where Go's bounds
    checks do; [payloadLength] is a [uint16] difference. *)

Definition ipv4MinimumSize : Z := 20.
Definition ipv4MaximumHeaderSize : Z := 60.
Definition ipv4AddressSize : Z := 4.
Definition udpMinimumSize : Z := 8.
Definition udpProtocolNumber : Z := 17.

Module ipv4.

Definition versIHL : Z := 0.
Definition ipTotalLen : Z := 2.
Definition protocol : Z := 9.
Definition srcAddr : Z := 12.
Definition dstAddr : Z := 16.

Definition headerLength (b : slice.t) : res Z :=
  (v <- slice.index b versIHL ;;
   Val ((Z.land (byte_to_Z v) 15 * 4) mod 256))%res.

Definition totalLength (b : slice.t) : res Z :=
  (s <- slice.from b ipTotalLen ;; Uint16 s)%res.

Definition payloadLength (b : slice.t) : res Z :=
  (tl <- totalLength b ;;
   hl <- headerLength b ;;
   Val ((tl - hl) mod 65536))%res.

Definition transportProtocol (b : slice.t) : res Z :=
  (p <- slice.index b protocol ;; Val (byte_to_Z p))%res.

Definition sourceAddress (b : slice.t) : res (list byte) :=
  (s <- slice.reslice b srcAddr (srcAddr + ipv4AddressSize) ;;
   Val (slice.elems s))%res.

Definition destinationAddress (b : slice.t) : res (list byte) :=
  (s <- slice.reslice b dstAddr (dstAddr + ipv4AddressSize) ;;
   Val (slice.elems s))%res.

End ipv4.

Module udp.

Definition udpSrcPort : Z := 0.
Definition udpDstPort : Z := 2.

Definition sourcePort (b : slice.t) : res Z :=
  (s <- slice.from b udpSrcPort ;; Uint16 s)%res.

Definition destinationPort (b : slice.t) : res Z :=
  (s <- slice.from b udpDstPort ;; Uint16 s)%res.

End udp.

(** ** package net: addresses *)

(** [net.IP] and [net.HardwareAddr] are byte slices that may be nil. *)
Definition net_IP : Type := option (list byte).
Definition HardwareAddr : Type := option (list byte).

Definition ip_bytes (ip : net_IP) : list byte :=
  match ip with
  | Some l => l
  | None => []
  end.

Fixpoint bytes_Equal (a c : list byte) : bool :=
  match a, c with
  | [], [] => true
  | x :: a', y :: c' => Byte.eqb x y && bytes_Equal a' c'
  | _, _ => false
  end.

Definition v4InV6Prefix : list byte :=
  [x00; x00; x00; x00; x00; x00; x00; x00; x00; x00; xff; xff].

(** [net.IP.Equal]: equal byte for byte, or the same IPv4 address in its
    4-byte and its 16-byte form. *)
Definition IP_Equal (ip x : net_IP) : bool :=
  let a := ip_bytes ip in
  let c := ip_bytes x in
  if Nat.eqb (length a) (length c) then bytes_Equal a c
  else if Nat.eqb (length a) 4 && Nat.eqb (length c) 16
  then bytes_Equal (firstn 12 c) v4InV6Prefix && bytes_Equal a (skipn 12 c)
  else if Nat.eqb (length a) 16 && Nat.eqb (length c) 4
  then bytes_Equal (firstn 12 a) v4InV6Prefix && bytes_Equal (skipn 12 a) c
  else false.

Record UDPAddr : Type := mkUDPAddr { IP : net_IP; Port : Z }.

(** A [net.Addr] interface value by its dynamic type; a nil interface is
    [None] of [option Addr].  Pointers held in the interface are non-nil. *)
Inductive Addr : Type :=
| AddrUDP (a : UDPAddr)
| AddrRaw (hw : HardwareAddr)
| AddrIP (ip : net_IP)
| AddrOther (network str : string).

Inductive error : Type :=
| EOF
| ErrUDPAddrIsRequired
| ErrHWAddrNotFound
| ErrNoRoute (dest : net_IP)
| ErrExternal (msg : string).

Definition BroadcastMac : HardwareAddr :=
  Some [xff; xff; xff; xff; xff; xff].

(** ** udpMatch *)

Definition udpMatch (addr : UDPAddr) (bound : option UDPAddr) : bool :=
  match bound with
  | None => true
  | Some bnd =>
      if (match IP bnd with Some _ => true | None => false end)
         && negb (IP_Equal (IP bnd) (IP addr))
      then false
      else Port bnd =? Port addr
  end.

(** ** BroadcastRawUDPConn.ReadFrom *)

(** What one [ReadFrom] on the underlying raw socket yields: the next
    frame on the wire, or an error. *)
Inductive RawRead : Type :=
| Frame (d : list byte)
| ReadErr (e : error).

(** [BroadcastRawUDPConn]: the embedded raw [PacketConn], given by the
    reads it will answer, and the address the connection is bound to. *)
Record BroadcastRawUDPConn : Type := mkBroadcastRawUDPConn {
  PacketConn : list RawRead;
  boundAddr : option UDPAddr
}.

(** The raw socket's [ReadFrom(pkt)]: at most [len(pkt)] bytes of the frame
    are stored at the front of [pkt]. *)
Definition rawRead (pkt : slice.t) (d : list byte) : Z * slice.t :=
  let n := Nat.min (slice.len pkt) (length d) in
  (Z.of_nat n,
   slice.mk (firstn n d ++ skipn n (slice.arr pkt)) (slice.len pkt)).

(** One pass through the body of the [for] loop once a frame of [n > 0]
    bytes has been read (lines 124-164).  [Val None] is [continue];
    [Val (Some (n, b', srcAddr))] is the [return] of line 164 with the
    caller's buffer as [copy] left it. *)
Definition handleFrame (bound : option UDPAddr) (b : list byte)
    (pkt : slice.t) (n : Z) : res (option (Z * list byte * UDPAddr)) :=
  let udpHdrLen := udpMinimumSize in
  (pkt <- slice.upto pkt n ;;
   let buf := uio.NewBigEndianBuffer pkt in
   if negb (uio.Has buf ipv4MinimumSize) then Val None else
   let ipHdr := uio.Data buf in
   hl <- ipv4.headerLength ipHdr ;;
   if negb (uio.Has buf hl) then Val None else
   hl <- ipv4.headerLength ipHdr ;;
   '(ipHdr, buf) <- uio.Consume buf hl ;;
   proto <- ipv4.transportProtocol ipHdr ;;
   if negb (proto =? udpProtocolNumber) then Val None else
   if negb (uio.Has buf udpHdrLen) then Val None else
   '(udpHdr, buf) <- uio.Consume buf udpHdrLen ;;
   dstIP <- ipv4.destinationAddress ipHdr ;;
   dstPort <- udp.destinationPort udpHdr ;;
   let addr := mkUDPAddr (Some dstIP) dstPort in
   if negb (udpMatch addr bound) then Val None else
   srcIP <- ipv4.sourceAddress ipHdr ;;
   srcPort <- udp.sourcePort udpHdr ;;
   let srcAddr := mkUDPAddr (Some srcIP) srcPort in
   payloadLen <- ipv4.payloadLength ipHdr ;;
   let dhcpLen := payloadLen - udpHdrLen in
   '(payload, _) <- uio.Consume buf dhcpLen ;;
   let (copied, b') := slice.copy b payload in
   Val (Some (copied, b', srcAddr)))%res.

(** How a call of [ReadFrom] ends: it returns [(n, addr, err)] with the
    caller's buffer as left, it panics, or it is still blocked in the
    socket read when the frames run out. *)
Inductive ReadOutcome : Type :=
| Returned (n : Z) (b' : list byte) (addr : option UDPAddr)
    (err : option error)
| Panicked
| Blocked.

Fixpoint ReadFrom_loop (bound : option UDPAddr) (b : list byte)
    (pending : list RawRead) : ReadOutcome * list RawRead :=
  let ipHdrMaxLen := ipv4MaximumHeaderSize in
  let udpHdrLen := udpMinimumSize in
  match pending with
  | [] => (Blocked, [])
  | ReadErr e :: pending' => (Returned 0 b None (Some e), pending')
  | Frame d :: pending' =>
      let pkt := slice.make (Z.to_nat (ipHdrMaxLen + udpHdrLen + zlen b)) in
      let (n, pkt) := rawRead pkt d in
      if n =? 0 then (Returned 0 b None (Some EOF), pending') else
      match handleFrame bound b pkt n with
      | Val None => ReadFrom_loop bound b pending'
      | Val (Some (copied, b', srcAddr)) =>
          (Returned copied b' (Some srcAddr) None, pending')
      | Panic => (Panicked, pending')
      end
  end.

Definition ReadFrom (upc : BroadcastRawUDPConn) (b : list byte)
    : ReadOutcome * BroadcastRawUDPConn :=
  let (out, pending') := ReadFrom_loop (boundAddr upc) b (PacketConn upc) in
  (out, mkBroadcastRawUDPConn pending' (boundAddr upc)).

(** *** The fields of a received frame, read off its bytes

    The same fields as the header views give, as total functions of the
    bytes of a frame; the theorems state the conditions of the loop body
    with them. *)

Definition u8 (f : list byte) (i : Z) : Z :=
  byte_to_Z (nth (Z.to_nat i) f x00).

Definition be16 (f : list byte) (i : Z) : Z :=
  Z.lor (u8 f (i + 1)) (Z.shiftl (u8 f i) 8).

Definition bytesAt (f : list byte) (i n : Z) : list byte :=
  firstn (Z.to_nat n) (skipn (Z.to_nat i) f).

(** The bytes [ReadFrom] receives of a frame [d] when the caller's buffer
    is [b]: its packet buffer holds [60 + 8 + len(b)] bytes. *)
Definition received (b d : list byte) : list byte :=
  firstn (Z.to_nat (ipv4MaximumHeaderSize + udpMinimumSize + zlen b)) d.

Definition frameHeaderLength (f : list byte) : Z := Z.land (u8 f 0) 15 * 4.
Definition frameTotalLength (f : list byte) : Z := be16 f 2.
Definition frameProtocol (f : list byte) : Z := u8 f 9.
Definition frameSrc (f : list byte) : UDPAddr :=
  mkUDPAddr (Some (bytesAt f 12 4)) (be16 f (frameHeaderLength f)).
Definition frameDst (f : list byte) : UDPAddr :=
  mkUDPAddr (Some (bytesAt f 16 4)) (be16 f (frameHeaderLength f + 2)).

(** [dhcpLen] of line 163. *)
Definition frameDhcpLen (f : list byte) : Z :=
  (frameTotalLength f - frameHeaderLength f) mod 65536 - udpMinimumSize.

(** The bytes that follow the IP header and the 8 bytes of UDP header. *)
Definition frameBody (f : list byte) : list byte :=
  skipn (Z.to_nat (frameHeaderLength f + udpMinimumSize)) f.

(** ** The environment of the write path *)

(** A Go call returning [(value, error)]. *)
Inductive result (A : Type) : Type :=
| Ok (a : A)
| Err (e : error).
Arguments Ok {A} a.
Arguments Err {A} e.

Module netlink.
(** The fields of [netlink.Neigh] and [netlink.Route] the code reads. *)
Record Neigh : Type := mkNeigh { IP : net_IP; HardwareAddr : HardwareAddr }.
Record Route : Type := mkRoute { LinkIndex : Z }.

(** The request of [NeighListExecute]: address family and neighbour
    state, with the library's values for IPv4 and for reachable. *)
Record Ndmsg : Type := mkNdmsg { Family : Z; State : Z }.
Definition FAMILY_V4 : Z := 2.
Definition NUD_REACHABLE : Z := 2.
End netlink.

Record Interface : Type := mkInterface { Index : Z }.

(** An [arp.Client], known by the interface it was dialled on. *)
Record ArpClient : Type := mkArpClient { ifi : Interface }.

(** The answers of the collaborators: the kernel's reachable IPv4
    neighbours, route lookup, interface lookup, the ARP client and the raw
    socket's [WriteTo]. *)
Record Env : Type := mkEnv {
  env_NeighListExecute : netlink.Ndmsg -> result (list netlink.Neigh);
  env_RouteGet : net_IP -> result (list netlink.Route);
  env_InterfaceByIndex : Z -> result Interface;
  env_Dial : Interface -> result ArpClient;
  env_Resolve : ArpClient -> net_IP -> result HardwareAddr;
  env_WriteTo : list byte -> HardwareAddr -> Z * option error
}.

(** The calls made to the collaborators, in the order they are made. *)
Inductive Event : Type :=
| EvNeighListExecute (msg : netlink.Ndmsg)
| EvRouteGet (dest : net_IP)
| EvInterfaceByIndex (index : Z)
| EvDial (ifc : Interface)
| EvResolve (c : ArpClient) (dest : net_IP)
| EvWriteTo (packet : list byte) (hw : HardwareAddr).

(** Computations that call the collaborators: the trace of calls is
    threaded through. *)
Definition IO (A : Type) : Type := list Event -> A * list Event.

Definition io_ret {A : Type} (a : A) : IO A := fun tr => (a, tr).

Definition io_bind {A B : Type} (m : IO A) (k : A -> IO B) : IO B :=
  fun tr => let (a, tr') := m tr in k a tr'.

Definition call {A : Type} (ev : Event) (answer : A) : IO A :=
  fun tr => (answer, tr ++ [ev]).

Declare Scope io_scope.
Delimit Scope io_scope with io.
Notation "x <- m ;; k" := (io_bind m (fun x => k))
  (at level 61, m at next level, right associativity) : io_scope.

(** Runs a computation from the empty trace. *)
Definition run {A : Type} (m : IO A) : A * list Event := m [].

Definition is_nil {A : Type} (s : option A) : bool :=
  match s with
  | Some _ => false
  | None => true
  end.

(** ** getHwAddr and arpResolve *)

Definition arpResolve (env : Env) (dest : net_IP) : IO (result HardwareAddr) :=
  (routes <- call (EvRouteGet dest) (env_RouteGet env dest) ;;
   match routes with
   | Err e => io_ret (Err e)
   | Ok [] => io_ret (Err (ErrNoRoute dest))
   | Ok (r0 :: _) =>
       ifc <- call (EvInterfaceByIndex (netlink.LinkIndex r0))
                (env_InterfaceByIndex env (netlink.LinkIndex r0)) ;;
       match ifc with
       | Err e => io_ret (Err e)
       | Ok ifc =>
           c <- call (EvDial ifc) (env_Dial env ifc) ;;
           match c with
           | Err e => io_ret (Err e)
           | Ok c => call (EvResolve c dest) (env_Resolve env c dest)
           end
       end
   end)%io.

(** The [for ... range neighList] loop of [getHwAddr]: the hardware
    address of the first neighbour that has the IP and a non-nil hardware
    address. *)
Definition neighMatches (ip : net_IP) (neigh : netlink.Neigh) : bool :=
  IP_Equal ip (netlink.IP neigh)
  && negb (is_nil (netlink.HardwareAddr neigh)).

Fixpoint neighLookup (ip : net_IP) (neighList : list netlink.Neigh)
    : option HardwareAddr :=
  match neighList with
  | [] => None
  | neigh :: rest =>
      if neighMatches ip neigh
      then Some (netlink.HardwareAddr neigh)
      else neighLookup ip rest
  end.

(** The request [getHwAddr] sends: the reachable IPv4 neighbours. *)
Definition reachableV4 : netlink.Ndmsg :=
  netlink.mkNdmsg netlink.FAMILY_V4 netlink.NUD_REACHABLE.

Definition getHwAddr (env : Env) (ip : net_IP) : IO (result HardwareAddr) :=
  (neighList <- call (EvNeighListExecute reachableV4)
                  (env_NeighListExecute env reachableV4) ;;
   match neighList with
   | Err e => io_ret (Err e)
   | Ok neighList =>
       match neighLookup ip neighList with
       | Some hw => io_ret (Ok hw)
       | None => arpResolve env ip
       end
   end)%io.

(** ** WriteTo *)

(** [udp4pkt(payload, dest, src)], the framing helper of [ipv4.go], is not
    among the sources; the write path takes it as a parameter.  It reads
    its source address through the connection's [boundAddr] pointer, so it
    may panic. *)
Definition Framer : Type :=
  list byte -> UDPAddr -> option UDPAddr -> res (list byte).

Definition BroadcastRawUDPConn_WriteTo (udp4pkt : Framer) (env : Env)
    (upc : BroadcastRawUDPConn) (b : list byte) (addr : option Addr)
    : IO (res (Z * option error)) :=
  match addr with
  | Some (AddrUDP udpAddr) =>
      match udp4pkt b udpAddr (boundAddr upc) with
      | Panic => io_ret Panic
      | Val packet =>
          (r <- call (EvWriteTo packet BroadcastMac)
                 (env_WriteTo env packet BroadcastMac) ;;
           io_ret (Val r))%io
      end
  | _ => io_ret (Val (0, Some ErrUDPAddrIsRequired))
  end.

(** [UnicastRawUDPConn] embeds a [*BroadcastRawUDPConn]. *)
Record UnicastRawUDPConn : Type := mkUnicastRawUDPConn {
  embedded : BroadcastRawUDPConn
}.

Definition UnicastRawUDPConn_WriteTo (udp4pkt : Framer) (env : Env)
    (upc : UnicastRawUDPConn) (b : list byte) (addr : option Addr)
    : IO (res (Z * option error)) :=
  match addr with
  | Some (AddrUDP udpAddr) =>
      match udp4pkt b udpAddr (boundAddr (embedded upc)) with
      | Panic => io_ret Panic
      | Val packet =>
          (dstMac <- getHwAddr env (IP udpAddr) ;;
           match dstMac with
           | Err _ => io_ret (Val (0, Some ErrHWAddrNotFound))
           | Ok dstMac =>
               r <- call (EvWriteTo packet dstMac)
                      (env_WriteTo env packet dstMac) ;;
               io_ret (Val r)
           end)%io
      end
  | _ => io_ret (Val (0, Some ErrUDPAddrIsRequired))
  end.

(** Whether a trace holds a write on the raw socket. *)
Definition isWrite (ev : Event) : bool :=
  match ev with
  | EvWriteTo _ _ => true
  | _ => false
  end.

Definition socketWrites (tr : list Event) : list Event := filter isWrite tr.

(** *** The loop body as a function of the received bytes

    What lines 124-164 do with a received frame [f], case by case; it is
    proved equal to [handleFrame] below ([handleFrame_frameSem]). *)
Definition frameSem (bound : option UDPAddr) (b f : list byte)
    : res (option (Z * list byte * UDPAddr)) :=
  let hl := frameHeaderLength f in
  let dl := frameDhcpLen f in
  if zlen f <? ipv4MinimumSize then Val None
  else if zlen f <? hl then Val None
  else if hl <? 10 then Panic
  else if negb (frameProtocol f =? udpProtocolNumber) then Val None
  else if zlen f - hl <? udpMinimumSize then Val None
  else if negb (udpMatch (frameDst f) bound) then Val None
  else if dl <? 0 then Panic
  else
    let payload :=
      if dl <=? zlen (frameBody f)
      then firstn (Z.to_nat dl) (frameBody f) else [] in
    let n := Nat.min (length b) (length payload) in
    Val (Some (Z.of_nat n, firstn n payload ++ skipn n b, frameSrc f)).

(** A slice of [len] bytes that starts [off] bytes into the packet buffer
    [f ++ tail]. *)
Definition over (f tail : list byte) (off len : nat) : slice.t :=
  slice.mk (skipn off (f ++ tail)) len.

(** ** Framing

    Modelled from the spec: [udp4pkt], declared in the package's [ipv4.go],
    is not among the sources.  Sections 4.1, 4.4 and 6 of the
    specification give its output: a 20-byte IPv4 header (version and
    header length, total length, protocol UDP, source and destination
    address) followed by an 8-byte UDP header (source port, destination
    port, length, checksum) and the payload, with the connection's bound
    address as source; checksums are zero-filled, as the specification
    allows, and so are the fields it does not name.  The bound address is
    read through its pointer: without one the call panics. *)

Definition Z_to_byte (z : Z) : byte :=
  match Byte.of_N (Z.to_N (z mod 256)) with
  | Some x => x
  | None => x00
  end.

(** A [uint16] in network byte order. *)
Definition putUint16 (v : Z) : list byte :=
  [Z_to_byte (Z.shiftr (v mod 65536) 8); Z_to_byte (v mod 65536)].

(** [net.IP.To4]: the 4-byte form of an IPv4 address, nil otherwise. *)
Definition To4 (ip : net_IP) : list byte :=
  let a := ip_bytes ip in
  if Nat.eqb (length a) 4 then a
  else if Nat.eqb (length a) 16 && bytes_Equal (firstn 12 a) v4InV6Prefix
  then skipn 12 a
  else [].

(** An address field: four bytes, zero where the address gives none. *)
Definition putAddr (a : list byte) : list byte :=
  firstn 4 (a ++ repeat x00 4).

Definition udp4pkt : Framer := fun packet dest src =>
  match src with
  | None => Panic
  | Some src =>
      Val ([x45; x00]
           ++ putUint16 (ipv4MinimumSize + udpMinimumSize + zlen packet)
           ++ [x00; x00; x00; x00; x00; x11; x00; x00]
           ++ putAddr (To4 (IP src)) ++ putAddr (To4 (IP dest))
           ++ putUint16 (Port src) ++ putUint16 (Port dest)
           ++ putUint16 (udpMinimumSize + zlen packet)
           ++ [x00; x00]
           ++ packet)
  end.

(** ** Sample frames and connections *)

(** A connection bound to port 68 on any address. *)
Definition bound68 : option UDPAddr := Some (mkUDPAddr None 68).

(** IPv4 (IHL 5, total length 36, protocol UDP, 192.168.1.1 to
    255.255.255.255), UDP (67 to 68, length 16), the payload [DHCPACK!],
    and four bytes of trailing padding. *)
Definition ackFrame : list byte :=
  [x45; x00; x00; x24; x00; x00; x00; x00; x40; x11; x00; x00;
   xc0; xa8; x01; x01; xff; xff; xff; xff;
   x00; x43; x00; x44; x00; x10; x00; x00;
   x44; x48; x43; x50; x41; x43; x4b; x21;
   x00; x00; x00; x00].

(** The same headers declaring a total length of 20: the IP header alone,
    although the UDP header follows. *)
Definition headerOnlyFrame : list byte :=
  [x45; x00; x00; x14; x00; x00; x00; x00; x40; x11; x00; x00;
   xc0; xa8; x01; x01; xff; xff; xff; xff;
   x00; x43; x00; x44; x00; x08; x00; x00].

(** The same headers declaring a total length of 100, with two bytes of
    payload on the wire. *)
Definition underfullFrame : list byte :=
  [x45; x00; x00; x64; x00; x00; x00; x00; x40; x11; x00; x00;
   xc0; xa8; x01; x01; xff; xff; xff; xff;
   x00; x43; x00; x44; x00; x50; x00; x00;
   x44; x48].

(** Twenty bytes whose first byte declares a header of zero words; the
    protocol byte is 1 (ICMP). *)
Definition zeroIHLFrame : list byte :=
  [x40; x00; x00; x14; x00; x00; x00; x00; x40; x01; x00; x00;
   xc0; xa8; x01; x01; xff; xff; xff; xff].

(** A caller's buffer of sixteen bytes. *)
Definition buf16 : list byte := repeat x00 16.

(** 10.0.0.5 and 10.0.0.6, and a unicast hardware address. *)
Definition ip_10_0_0_5 : net_IP := Some [x0a; x00; x00; x05].
Definition ip_10_0_0_6 : net_IP := Some [x0a; x00; x00; x06].
Definition sampleMac : HardwareAddr :=
  Some [x02; x00; x00; x00; x00; x01].

(** An environment with the given neighbour table, routes and ARP answer;
    interfaces and ARP clients always open, and the raw socket reports
    every packet written whole. *)
Definition sampleEnv (neighList : list netlink.Neigh)
    (routes : result (list netlink.Route)) (answer : result HardwareAddr)
    : Env :=
  mkEnv (fun _ => Ok neighList) (fun _ => routes)
    (fun index => Ok (mkInterface index))
    (fun ifc => Ok (mkArpClient ifc))
    (fun _ _ => answer)
    (fun packet _ => (zlen packet, None)).

(** 10.0.0.5 is a reachable neighbour. *)
Definition envNeighbour : Env :=
  sampleEnv [netlink.mkNeigh ip_10_0_0_6 None;
             netlink.mkNeigh ip_10_0_0_5 sampleMac]
    (Ok []) (Err (ErrExternal "timeout")).

(** No neighbour, a route through interface 2, and an ARP reply. *)
Definition envArp : Env :=
  sampleEnv [] (Ok [netlink.mkRoute 2]) (Ok sampleMac).

(** No neighbour and no route. *)
Definition envNoRoute : Env :=
  sampleEnv [] (Ok []) (Err (ErrExternal "timeout")).

Definition conn68 : BroadcastRawUDPConn := mkBroadcastRawUDPConn [] bound68.

Definition payload4 : list byte := [x01; x02; x03; x04].

(** ** Constructors and the connection as a net.PacketConn *)

Definition UDPBroadcast : Z := 0.
Definition UDPUnicast : Z := 1.

(** [uint16(ethernet.EtherTypeIPv4)]. *)
Definition EtherTypeIPv4 : Z := 2048.

Definition NewBroadcastUDPConn (rawPacketConn : list RawRead)
    (boundAddr : option UDPAddr) : BroadcastRawUDPConn :=
  mkBroadcastRawUDPConn rawPacketConn boundAddr.

Definition NewUnicastRawUDPConn (rawPacketConn : list RawRead)
    (boundAddr : option UDPAddr) : UnicastRawUDPConn :=
  mkUnicastRawUDPConn (NewBroadcastUDPConn rawPacketConn boundAddr).

(** The [net.PacketConn] the constructors return, by its dynamic type. *)
Inductive RawUDPConn : Type :=
| Broadcast (upc : BroadcastRawUDPConn)
| Unicast (upc : UnicastRawUDPConn).

(** What [NewRawUDPConn] asks of the system: the interface by its name and
    a raw socket on it, given by the reads the socket will answer. *)
Record OpenEnv : Type := mkOpenEnv {
  env_InterfaceByName : string -> result Interface;
  env_ListenPacket : Interface -> Z -> bool -> result (list RawRead)
}.

Inductive OpenEvent : Type :=
| EvInterfaceByName (iface : string)
| EvListenPacket (ifc : Interface) (proto : Z) (linuxSockDGRAM : bool).

(** [NewRawUDPConn] with the calls it made. *)
Definition NewRawUDPConn (oenv : OpenEnv) (iface : string)
    (addr : option UDPAddr) (typ : Z) : result RawUDPConn * list OpenEvent :=
  match env_InterfaceByName oenv iface with
  | Err e => (Err e, [EvInterfaceByName iface])
  | Ok ifc =>
      let opened :=
        [EvInterfaceByName iface; EvListenPacket ifc EtherTypeIPv4 true] in
      match env_ListenPacket oenv ifc EtherTypeIPv4 true with
      | Err e => (Err e, opened)
      | Ok rawConn =>
          if typ =? UDPUnicast
          then (Ok (Unicast (NewUnicastRawUDPConn rawConn addr)), opened)
          else (Ok (Broadcast (NewBroadcastUDPConn rawConn addr)), opened)
      end
  end.

(** Method calls through the interface value.  [UnicastRawUDPConn] has no
    [ReadFrom] of its own: the call goes to the embedded
    [*BroadcastRawUDPConn]. *)
Definition RawUDPConn_ReadFrom (c : RawUDPConn) (b : list byte)
    : ReadOutcome * RawUDPConn :=
  match c with
  | Broadcast upc =>
      let (out, upc') := ReadFrom upc b in (out, Broadcast upc')
  | Unicast upc =>
      let (out, upc') := ReadFrom (embedded upc) b in
      (out, Unicast (mkUnicastRawUDPConn upc'))
  end.

Definition RawUDPConn_WriteTo (udp4pkt : Framer) (env : Env)
    (c : RawUDPConn) (b : list byte) (addr : option Addr)
    : IO (res (Z * option error)) :=
  match c with
  | Broadcast upc => BroadcastRawUDPConn_WriteTo udp4pkt env upc b addr
  | Unicast upc => UnicastRawUDPConn_WriteTo udp4pkt env upc b addr
  end.

(** ** More samples *)

(** An ICMP echo to the broadcast address: IHL 5, protocol 1. *)
Definition icmpFrame : list byte :=
  [x45; x00; x00; x1c; x00; x00; x00; x00; x40; x01; x00; x00;
   xc0; xa8; x01; x01; xff; xff; xff; xff;
   x08; x00; xf7; xff; x00; x00; x00; x00].

(** [ackFrame] readdressed to UDP port 69. *)
Definition otherPortFrame : list byte :=
  [x45; x00; x00; x24; x00; x00; x00; x00; x40; x11; x00; x00;
   xc0; xa8; x01; x01; xff; xff; xff; xff;
   x00; x43; x00; x45; x00; x10; x00; x00;
   x44; x48; x43; x50; x41; x43; x4b; x21].

(** A system with one interface, [eth0], of index 2, whose raw socket
    will deliver [ackFrame]. *)
Definition sampleOpenEnv : OpenEnv :=
  mkOpenEnv
    (fun iface =>
       if String.eqb iface "eth0" then Ok (mkInterface 2)
       else Err (ErrExternal "no such network interface"))
    (fun _ _ _ => Ok [Frame ackFrame]).

(** IPv4 (IHL 5, total length 72, protocol UDP), UDP 67 to 68 and 44 bytes
    of payload: 72 bytes, no padding. *)
Definition bigFrame : list byte :=
  [x45; x00; x00; x48; x00; x00; x00; x00; x40; x11; x00; x00;
   xc0; xa8; x01; x01; xff; xff; xff; xff;
   x00; x43; x00; x44; x00; x34; x00; x00] ++ repeat x41 44.

(** A caller's buffer of two bytes. *)
Definition buf2 : list byte := [x00; x00].

(** A system whose neighbour listing fails. *)
Definition envNoNetlink : Env :=
  mkEnv (fun _ => Err (ErrExternal "operation not permitted"))
    (fun _ => Ok [netlink.mkRoute 2])
    (fun index => Ok (mkInterface index))
    (fun ifc => Ok (mkArpClient ifc))
    (fun _ _ => Ok sampleMac)
    (fun packet _ => (zlen packet, None)).

(** 10.0.0.5 in the 16-byte form of [net.IPv4]. *)
Definition ip16_10_0_0_5 : net_IP := Some (v4InV6Prefix ++ [x0a; x00; x00; x05]).

(** ** Resolution as the specification words it

    The fast path of section 4.2 taken by its words, for comparison with
    [getHwAddr]: an entry counts when its IP equals the target and its
    link address is non-empty; if the table holds such an entry the
    address of such an entry is returned with the neighbour listing as
    the only call, and otherwise a route lookup is made. *)

Definition nonEmpty (hw : HardwareAddr) : bool :=
  match hw with
  | Some (_ :: _) => true
  | _ => false
  end.

Definition resolvesAsWorded (env : Env) (ip : net_IP)
    (neighList : list netlink.Neigh) : Prop :=
  (forall neigh,
      In neigh neighList ->
      IP_Equal ip (netlink.IP neigh) = true ->
      nonEmpty (netlink.HardwareAddr neigh) = true ->
      exists hit,
        In hit neighList
        /\ IP_Equal ip (netlink.IP hit) = true
        /\ nonEmpty (netlink.HardwareAddr hit) = true
        /\ run (getHwAddr env ip)
           = (Ok (netlink.HardwareAddr hit),
              [EvNeighListExecute reachableV4]))
  /\ ((forall neigh,
          In neigh neighList ->
          IP_Equal ip (netlink.IP neigh)
          && nonEmpty (netlink.HardwareAddr neigh) = false) ->
      In (EvRouteGet ip) (snd (run (getHwAddr env ip)))).

(** Neighbour tables in which 10.0.0.5 has an entry whose link address is
    empty but not nil: alone, and ahead of an entry with a usable
    address. *)
Definition emptyAddrTable : list netlink.Neigh :=
  [netlink.mkNeigh ip_10_0_0_5 (Some [])].

Definition shadowedTable : list netlink.Neigh :=
  [netlink.mkNeigh ip_10_0_0_5 (Some []);
   netlink.mkNeigh ip_10_0_0_5 sampleMac].

Definition envEmptyAddr : Env :=
  sampleEnv emptyAddrTable (Ok [netlink.mkRoute 2]) (Ok sampleMac).

Definition envShadowed : Env :=
  sampleEnv shadowedTable (Ok [netlink.mkRoute 2]) (Ok sampleMac).

(** The headers of [ackFrame] declaring a total length of 24, four bytes
    short of the end of the UDP header, with four bytes of payload on the
    wire. *)
Definition shortTotalFrame : list byte :=
  [x45; x00; x00; x18; x00; x00; x00; x00; x40; x11; x00; x00;
   xc0; xa8; x01; x01; xff; xff; xff; xff;
   x00; x43; x00; x44; x00; x0c; x00; x00;
   x44; x48; x43; x50].

(** * Properties *)

(** ** Slices over a packet buffer *)

Lemma byte_to_Z_range (x : byte) : 0 <= byte_to_Z x <= 255.
Proof.
  unfold byte_to_Z. pose proof (Byte.to_N_bounded x). lia.
Qed.

Lemma land15_range (z : Z) : 0 <= z -> 0 <= Z.land z 15 <= 15.
Proof.
  intros Hz. split.
  - apply Z.land_nonneg. now left.
  - replace (Z.land z 15) with (z mod 16)
      by (symmetry; apply (Z.land_ones z 4); lia).
    pose proof (Z.mod_pos_bound z 16). lia.
Qed.

Lemma frameHeaderLength_range (f : list byte) :
  0 <= frameHeaderLength f <= 60.
Proof.
  unfold frameHeaderLength, u8.
  pose proof (land15_range _ (proj1 (byte_to_Z_range (nth (Z.to_nat 0) f x00)))).
  lia.
Qed.

Lemma index_over f tail off len i :
  0 <= i < Z.of_nat len -> (off + Z.to_nat i < length f)%nat ->
  slice.index (over f tail off len) i = Val (nth (off + Z.to_nat i) f x00).
Proof.
  intros Hi Hf. unfold slice.index, over. cbn [slice.len slice.arr].
  replace ((0 <=? i) && (i <? Z.of_nat len)) with true
    by (symmetry; apply andb_true_iff; split; [apply Z.leb_le|apply Z.ltb_lt]; lia).
  rewrite nth_skipn, app_nth1 by lia. reflexivity.
Qed.

Lemma index_over_panic f tail off len i :
  Z.of_nat len <= i ->
  slice.index (over f tail off len) i = Panic.
Proof.
  intros Hi. unfold slice.index, over. cbn [slice.len slice.arr].
  replace (i <? Z.of_nat len) with false by (symmetry; apply Z.ltb_ge; lia).
  rewrite andb_false_r. reflexivity.
Qed.

Lemma reslice_over f tail off len lo hi :
  0 <= lo <= hi -> (off + Z.to_nat hi <= length f + length tail)%nat ->
  slice.reslice (over f tail off len) lo hi =
  Val (over f tail (off + Z.to_nat lo) (Z.to_nat (hi - lo))).
Proof.
  intros Hlo Hhi. unfold slice.reslice, over, slice.cap. cbn [slice.len slice.arr].
  rewrite length_skipn, length_app.
  replace ((0 <=? lo) && (lo <=? hi) && (hi <=? Z.of_nat (length f + length tail - off))) with true.
  - rewrite skipn_skipn. do 3 f_equal. lia.
  - symmetry. rewrite !andb_true_iff, !Z.leb_le. lia.
Qed.

Lemma reslice_over_neg f tail off len hi :
  hi < 0 -> slice.reslice (over f tail off len) 0 hi = Panic.
Proof.
  intros H. unfold slice.reslice.
  replace (0 <=? hi) with false by (symmetry; apply Z.leb_gt; lia).
  reflexivity.
Qed.

Lemma elems_over f tail off len :
  (off + len <= length f)%nat ->
  slice.elems (over f tail off len) = firstn len (skipn off f).
Proof.
  intros H. unfold slice.elems, over. cbn [slice.len slice.arr].
  rewrite skipn_app, firstn_app, length_skipn.
  replace (len - (length f - off))%nat with 0%nat by lia.
  rewrite firstn_O, app_nil_r. reflexivity.
Qed.

Lemma Uint16_over f tail off len :
  (2 <= len)%nat -> (off + 2 <= length f)%nat ->
  Uint16 (over f tail off len) = Val (be16 f (Z.of_nat off)).
Proof.
  intros Hl Hf. unfold Uint16.
  rewrite !index_over by lia. cbn [res_bind].
  unfold be16, u8. do 4 f_equal; f_equal; lia.
Qed.

Lemma len_over f tail off len : slice.len (over f tail off len) = len.
Proof. reflexivity. Qed.

(** ** uio.Buffer over a packet buffer *)

Lemma Has_over f tail off len n :
  uio.Has (uio.mk (over f tail off len)) n = (n <=? Z.of_nat len).
Proof. reflexivity. Qed.

Lemma Consume_over f tail off len n :
  0 <= n <= Z.of_nat len -> (off + len <= length f + length tail)%nat ->
  uio.Consume (uio.mk (over f tail off len)) n =
  Val (over f tail off (Z.to_nat n),
       uio.mk (over f tail (off + Z.to_nat n) (len - Z.to_nat n))).
Proof.
  intros Hn Hc. unfold uio.Consume. rewrite Has_over.
  replace (n <=? Z.of_nat len) with true by (symmetry; apply Z.leb_le; lia).
  unfold slice.upto, slice.from. cbn [uio.data].
  rewrite !reslice_over by (rewrite ?len_over; lia).
  rewrite len_over. cbn [res_bind].
  replace (off + Z.to_nat 0)%nat with off by lia.
  replace (Z.to_nat (n - 0)) with (Z.to_nat n) by lia.
  replace (Z.to_nat (Z.of_nat len - n)) with (len - Z.to_nat n)%nat by lia.
  reflexivity.
Qed.

Lemma Consume_over_short f tail off len n :
  Z.of_nat len < n ->
  uio.Consume (uio.mk (over f tail off len)) n =
  Val (slice.nil, uio.mk (over f tail off len)).
Proof.
  intros Hn. unfold uio.Consume. rewrite Has_over.
  replace (n <=? Z.of_nat len) with false by (symmetry; apply Z.leb_gt; lia).
  reflexivity.
Qed.

Lemma Consume_over_negative f tail off len n :
  n < 0 -> uio.Consume (uio.mk (over f tail off len)) n = Panic.
Proof.
  intros Hn. unfold uio.Consume. rewrite Has_over.
  replace (n <=? Z.of_nat len) with true by (symmetry; apply Z.leb_le; lia).
  unfold slice.upto. cbn [uio.data].
  rewrite reslice_over_neg by lia. reflexivity.
Qed.

(** ** The header views over a packet buffer *)

Lemma headerLength_over f tail len :
  (1 <= len)%nat -> (1 <= length f)%nat ->
  ipv4.headerLength (over f tail 0 len) = Val (frameHeaderLength f).
Proof.
  intros Hl Hf. unfold ipv4.headerLength, ipv4.versIHL.
  rewrite index_over by (simpl; lia). cbn [res_bind]. f_equal.
  pose proof (frameHeaderLength_range f) as Hr.
  change (Z.land (byte_to_Z (nth (0 + Z.to_nat 0) f x00)) 15 * 4)
    with (frameHeaderLength f).
  apply Z.mod_small. lia.
Qed.

Lemma transportProtocol_over f tail len :
  (10 <= len)%nat -> (10 <= length f)%nat ->
  ipv4.transportProtocol (over f tail 0 len) = Val (frameProtocol f).
Proof.
  intros Hl Hf. unfold ipv4.transportProtocol, ipv4.protocol.
  rewrite index_over by (simpl; lia). reflexivity.
Qed.

Lemma transportProtocol_over_panic f tail len :
  (len < 10)%nat -> ipv4.transportProtocol (over f tail 0 len) = Panic.
Proof.
  intros Hl. unfold ipv4.transportProtocol, ipv4.protocol.
  rewrite index_over_panic by lia. reflexivity.
Qed.

Lemma sourceAddress_over f tail len :
  (20 <= length f)%nat ->
  ipv4.sourceAddress (over f tail 0 len) = Val (bytesAt f 12 4).
Proof.
  intros Hf. unfold ipv4.sourceAddress, ipv4.srcAddr, ipv4AddressSize.
  rewrite reslice_over by (simpl; lia). cbn [res_bind].
  rewrite elems_over by (simpl; lia). reflexivity.
Qed.

Lemma destinationAddress_over f tail len :
  (20 <= length f)%nat ->
  ipv4.destinationAddress (over f tail 0 len) = Val (bytesAt f 16 4).
Proof.
  intros Hf. unfold ipv4.destinationAddress, ipv4.dstAddr, ipv4AddressSize.
  rewrite reslice_over by (simpl; lia). cbn [res_bind].
  rewrite elems_over by (simpl; lia). reflexivity.
Qed.

Lemma payloadLength_over f tail len :
  (4 <= len)%nat -> (len <= length f)%nat ->
  ipv4.payloadLength (over f tail 0 len) =
  Val ((frameTotalLength f - frameHeaderLength f) mod 65536).
Proof.
  intros Hl Hf. unfold ipv4.payloadLength, ipv4.totalLength, ipv4.ipTotalLen.
  unfold slice.from. rewrite len_over.
  rewrite reslice_over by lia. cbn [res_bind].
  rewrite Uint16_over by lia. cbn [res_bind].
  rewrite headerLength_over by lia. reflexivity.
Qed.

Lemma sourcePort_over f tail off :
  (off + 8 <= length f)%nat ->
  udp.sourcePort (over f tail off 8) = Val (be16 f (Z.of_nat off)).
Proof.
  intros Hf. unfold udp.sourcePort, udp.udpSrcPort, slice.from.
  rewrite len_over, reslice_over by lia. cbn [res_bind].
  rewrite Uint16_over by lia. do 2 f_equal. lia.
Qed.

Lemma destinationPort_over f tail off :
  (off + 8 <= length f)%nat ->
  udp.destinationPort (over f tail off 8) = Val (be16 f (Z.of_nat off + 2)).
Proof.
  intros Hf. unfold udp.destinationPort, udp.udpDstPort, slice.from.
  rewrite len_over, reslice_over by lia. cbn [res_bind].
  rewrite Uint16_over by lia. do 2 f_equal. lia.
Qed.

(** ** The loop body *)

Lemma length_frameBody f :
  frameHeaderLength f + udpMinimumSize <= zlen f ->
  zlen (frameBody f) = zlen f - frameHeaderLength f - udpMinimumSize.
Proof.
  intros H. unfold frameBody, zlen in *. rewrite length_skipn.
  pose proof (frameHeaderLength_range f). unfold udpMinimumSize in *. lia.
Qed.

Lemma handleFrame_frameSem bound b f tail :
  handleFrame bound b (slice.mk (f ++ tail) (length (f ++ tail))) (zlen f)
  = frameSem bound b f.
Proof.
  pose proof (frameHeaderLength_range f) as Hhl.
  unfold handleFrame, frameSem, zlen, ipv4MinimumSize, udpMinimumSize,
    udpProtocolNumber.
  change (slice.mk (f ++ tail) (length (f ++ tail)))
    with (over f tail 0 (length (f ++ tail))).
  unfold slice.upto.
  rewrite reslice_over by lia. cbn [res_bind].
  replace (Z.to_nat (Z.of_nat (length f) - 0)) with (length f) by lia.
  change (0 + Z.to_nat 0)%nat with 0%nat.
  unfold uio.NewBigEndianBuffer, uio.Data. cbn [uio.data].
  rewrite Has_over.
  destruct (Z.ltb_spec (Z.of_nat (length f)) 20) as [Hshort|Hmin].
  { replace (20 <=? Z.of_nat (length f)) with false
      by (symmetry; apply Z.leb_gt; lia). reflexivity. }
  replace (20 <=? Z.of_nat (length f)) with true
    by (symmetry; apply Z.leb_le; lia).
  cbn [negb]. rewrite headerLength_over by lia. cbn [res_bind].
  rewrite Has_over.
  set (hl := frameHeaderLength f) in *.
  destruct (Z.ltb_spec (Z.of_nat (length f)) hl) as [Hover|Hfits].
  { replace (hl <=? Z.of_nat (length f)) with false
      by (symmetry; apply Z.leb_gt; lia). reflexivity. }
  replace (hl <=? Z.of_nat (length f)) with true
    by (symmetry; apply Z.leb_le; lia).
  cbn [negb]. rewrite Consume_over by lia. cbn [res_bind].
  change (0 + Z.to_nat hl)%nat with (Z.to_nat hl).
  destruct (Z.ltb_spec hl 10) as [Hlow|Hten].
  { rewrite transportProtocol_over_panic by lia. reflexivity. }
  rewrite transportProtocol_over by lia. cbn [res_bind].
  destruct (frameProtocol f =? 17); [cbn [negb]|reflexivity].
  rewrite Has_over.
  destruct (Z.ltb_spec (Z.of_nat (length f) - hl) 8) as [Hnoudp|Hudp].
  { replace (8 <=? Z.of_nat (length f - Z.to_nat hl)) with false
      by (symmetry; apply Z.leb_gt; lia). reflexivity. }
  replace (8 <=? Z.of_nat (length f - Z.to_nat hl)) with true
    by (symmetry; apply Z.leb_le; lia).
  cbn [negb]. rewrite Consume_over by lia. cbn [res_bind].
  change (Z.to_nat 8) with 8%nat.
  rewrite destinationAddress_over by lia. cbn [res_bind].
  rewrite destinationPort_over by lia. cbn [res_bind].
  replace (Z.of_nat (Z.to_nat hl) + 2) with (hl + 2) by lia.
  change (mkUDPAddr (Some (bytesAt f 16 4)) (be16 f (hl + 2)))
    with (frameDst f).
  destruct (udpMatch (frameDst f) bound); [cbn [negb]|reflexivity].
  rewrite sourceAddress_over by lia. cbn [res_bind].
  rewrite sourcePort_over by lia. cbn [res_bind].
  replace (Z.of_nat (Z.to_nat hl)) with hl by lia.
  change (mkUDPAddr (Some (bytesAt f 12 4)) (be16 f hl)) with (frameSrc f).
  rewrite payloadLength_over by lia. cbn [res_bind].
  fold hl. change ((frameTotalLength f - hl) mod 65536 - 8)
    with (frameDhcpLen f).
  set (dl := frameDhcpLen f).
  assert (Hbody : zlen (frameBody f) = Z.of_nat (length f) - hl - 8).
  { apply length_frameBody. unfold zlen, udpMinimumSize. fold hl. lia. }
  unfold zlen in Hbody. rewrite Hbody.
  destruct (Z.ltb_spec dl 0) as [Hneg|Hnonneg].
  { rewrite Consume_over_negative by lia. reflexivity. }
  destruct (Z.leb_spec dl (Z.of_nat (length f) - hl - 8)) as [Hin|Hout].
  - rewrite Consume_over by lia. cbn [res_bind].
    unfold slice.copy. rewrite len_over, elems_over by lia.
    assert (Hlen : length (firstn (Z.to_nat dl) (frameBody f)) = Z.to_nat dl).
    { rewrite length_firstn. lia. }
    rewrite Hlen. unfold frameBody, udpMinimumSize. fold hl.
    replace (Z.to_nat (hl + 8)) with (Z.to_nat hl + 8)%nat by lia.
    reflexivity.
  - rewrite Consume_over_short by lia. cbn [res_bind].
    unfold slice.copy. cbn [slice.len slice.nil slice.elems slice.arr length].
    rewrite Nat.min_0_r. reflexivity.
Qed.

Lemma u8_range f i : 0 <= u8 f i <= 255.
Proof. apply byte_to_Z_range. Qed.

Lemma be16_range f i : 0 <= be16 f i < 65536.
Proof.
  unfold be16.
  pose proof (u8_range f (i + 1)) as Hlo. pose proof (u8_range f i) as Hhi.
  set (lo := u8 f (i + 1)) in *. set (hi := u8 f i) in *.
  assert (Hs : 0 <= Z.shiftl hi 8 < 65536).
  { rewrite Z.shiftl_mul_pow2 by lia. change (2 ^ 8) with 256. lia. }
  assert (H0 : 0 <= Z.lor lo (Z.shiftl hi 8)) by (apply Z.lor_nonneg; lia).
  split; [exact H0|].
  destruct (Z.eq_dec (Z.lor lo (Z.shiftl hi 8)) 0) as [E|E]; [lia|].
  change 65536 with (2 ^ 16).
  apply Z.log2_lt_pow2; [lia|].
  rewrite Z.log2_lor by lia.
  apply Z.max_lub_lt.
  - destruct (Z.eq_dec lo 0) as [->|]; [reflexivity|].
    apply Z.log2_lt_pow2; [lia|]. change (2 ^ 16) with 65536. lia.
  - destruct (Z.eq_dec (Z.shiftl hi 8) 0) as [->|]; [reflexivity|].
    apply Z.log2_lt_pow2; [lia|]. change (2 ^ 16) with 65536. lia.
Qed.

Lemma frameDhcpLen_declared f :
  frameHeaderLength f <= frameTotalLength f ->
  frameDhcpLen f = frameTotalLength f - frameHeaderLength f - udpMinimumSize.
Proof.
  intros H. unfold frameDhcpLen.
  pose proof (be16_range f 2) as Ht. fold (frameTotalLength f) in Ht.
  pose proof (frameHeaderLength_range f).
  rewrite Z.mod_small by lia. reflexivity.
Qed.

(** ** The receive loop *)

Lemma received_length b d :
  length (received b d) =
  Nat.min (Z.to_nat (ipv4MaximumHeaderSize + udpMinimumSize + zlen b))
    (length d).
Proof. unfold received. apply length_firstn. Qed.

(** One turn of the loop on a frame: end of stream if nothing was read,
    otherwise what the loop body makes of the received bytes. *)
Lemma ReadFrom_loop_frame bound b d pending :
  ReadFrom_loop bound b (Frame d :: pending) =
  if zlen (received b d) =? 0
  then (Returned 0 b None (Some EOF), pending)
  else match frameSem bound b (received b d) with
       | Val None => ReadFrom_loop bound b pending
       | Val (Some (copied, b', srcAddr)) =>
           (Returned copied b' (Some srcAddr) None, pending)
       | Panic => (Panicked, pending)
       end.
Proof.
  cbn [ReadFrom_loop]. unfold rawRead, slice.make.
  cbn [slice.len slice.arr].
  set (c := Z.to_nat (ipv4MaximumHeaderSize + udpMinimumSize + zlen b)).
  assert (Hf : firstn (Nat.min c (length d)) d = received b d).
  { unfold received. fold c.
    destruct (Nat.le_ge_cases c (length d)) as [H|H].
    - now rewrite Nat.min_l.
    - rewrite Nat.min_r by lia. now rewrite !firstn_all2 by lia. }
  assert (Hn : Z.of_nat (Nat.min c (length d)) = zlen (received b d)).
  { unfold zlen. now rewrite received_length. }
  rewrite Hf, Hn.
  destruct (zlen (received b d) =? 0); [reflexivity|].
  set (tail := skipn (Nat.min c (length d)) (repeat x00 c)).
  replace c with (length (received b d ++ tail)) at 1.
  - rewrite handleFrame_frameSem. reflexivity.
  - rewrite length_app. unfold tail.
    rewrite length_skipn, repeat_length, received_length. fold c. lia.
Qed.

Lemma ReadFrom_unfold upc b :
  ReadFrom upc b =
  (fst (ReadFrom_loop (boundAddr upc) b (PacketConn upc)),
   mkBroadcastRawUDPConn
     (snd (ReadFrom_loop (boundAddr upc) b (PacketConn upc)))
     (boundAddr upc)).
Proof.
  unfold ReadFrom.
  now destruct (ReadFrom_loop (boundAddr upc) b (PacketConn upc)).
Qed.

(** Frames the loop body discards leave the loop reading the next one. *)
Lemma ReadFrom_loop_discards bound b d pending :
  let f := received b d in
  d <> [] ->
  zlen f < ipv4MinimumSize
  \/ zlen f < frameHeaderLength f
  \/ (10 <= frameHeaderLength f /\ frameProtocol f <> udpProtocolNumber)
  \/ (ipv4MinimumSize <= zlen f
      /\ zlen f - frameHeaderLength f < udpMinimumSize) ->
  ReadFrom_loop bound b (Frame d :: pending) = ReadFrom_loop bound b pending.
Proof.
  intros f Hd H. rewrite ReadFrom_loop_frame. fold f.
  assert (Hnz : zlen f <> 0).
  { unfold f, zlen. rewrite received_length.
    destruct d; [congruence|]. unfold ipv4MaximumHeaderSize, udpMinimumSize, zlen.
    cbn [length]. lia. }
  replace (zlen f =? 0) with false by (symmetry; now apply Z.eqb_neq).
  pose proof (frameHeaderLength_range f) as Hhl.
  unfold frameSem, ipv4MinimumSize, udpMinimumSize, udpProtocolNumber in *.
  destruct (Z.ltb_spec (zlen f) 20); [reflexivity|].
  destruct (Z.ltb_spec (zlen f) (frameHeaderLength f)); [reflexivity|].
  destruct (Z.ltb_spec (frameHeaderLength f) 10); [lia|].
  destruct (Z.eqb_spec (frameProtocol f) 17); cbn [negb]; [|reflexivity].
  destruct (Z.ltb_spec (zlen f - frameHeaderLength f) 8); [reflexivity|].
  lia.
Qed.

(** A frame whose declared header ends before the protocol byte makes the
    loop body index past the header it consumed. *)
Lemma ReadFrom_loop_header_below_protocol bound b d pending :
  let f := received b d in
  ipv4MinimumSize <= zlen f -> frameHeaderLength f < 10 ->
  ReadFrom_loop bound b (Frame d :: pending) = (Panicked, pending).
Proof.
  intros f Hmin Hhl. rewrite ReadFrom_loop_frame. fold f.
  pose proof (frameHeaderLength_range f).
  unfold frameSem, ipv4MinimumSize in *.
  replace (zlen f =? 0) with false by (symmetry; apply Z.eqb_neq; lia).
  replace (zlen f <? 20) with false by (symmetry; apply Z.ltb_ge; lia).
  replace (zlen f <? frameHeaderLength f) with false
    by (symmetry; apply Z.ltb_ge; lia).
  replace (frameHeaderLength f <? 10) with true
    by (symmetry; apply Z.ltb_lt; lia).
  reflexivity.
Qed.

(** What the loop does with a frame that passes the four header checks
    and the bound-address filter. *)
Lemma ReadFrom_loop_matching bound b d pending :
  let f := received b d in
  ipv4MinimumSize <= zlen f ->
  10 <= frameHeaderLength f ->
  frameProtocol f = udpProtocolNumber ->
  frameHeaderLength f + udpMinimumSize <= zlen f ->
  udpMatch (frameDst f) bound = true ->
  ReadFrom_loop bound b (Frame d :: pending) =
  if frameDhcpLen f <? 0 then (Panicked, pending)
  else
    let payload :=
      if frameDhcpLen f <=? zlen (frameBody f)
      then firstn (Z.to_nat (frameDhcpLen f)) (frameBody f) else [] in
    let n := Nat.min (length b) (length payload) in
    (Returned (Z.of_nat n) (firstn n payload ++ skipn n b)
       (Some (frameSrc f)) None, pending).
Proof.
  intros f Hmin Hhl Hproto Hudp Hmatch. rewrite ReadFrom_loop_frame. fold f.
  unfold frameSem, ipv4MinimumSize, udpMinimumSize in *.
  replace (zlen f =? 0) with false by (symmetry; apply Z.eqb_neq; lia).
  replace (zlen f <? 20) with false by (symmetry; apply Z.ltb_ge; lia).
  replace (zlen f <? frameHeaderLength f) with false
    by (symmetry; apply Z.ltb_ge; lia).
  replace (frameHeaderLength f <? 10) with false
    by (symmetry; apply Z.ltb_ge; lia).
  rewrite Hproto, Z.eqb_refl. cbn [negb].
  replace (zlen f - frameHeaderLength f <? 8) with false
    by (symmetry; apply Z.ltb_ge; lia).
  rewrite Hmatch. cbn [negb].
  destruct (frameDhcpLen f <? 0); reflexivity.
Qed.

(** The loop passes over any run of frames that it discards one by one:
    every turn of the loop starts from the same state but for the frames
    still to be read. *)
Lemma ReadFrom_loop_skips bound b skipped pending :
  Forall (fun d => ReadFrom_loop bound b [Frame d] = (Blocked, [])) skipped ->
  ReadFrom_loop bound b (map Frame skipped ++ pending) =
  ReadFrom_loop bound b pending.
Proof.
  induction 1 as [|d skipped Hd _ IH]; [reflexivity|].
  cbn [map app]. rewrite ReadFrom_loop_frame in *.
  destruct (zlen (received b d) =? 0); [discriminate|].
  destruct (frameSem bound b (received b d)) as [[[[n b'] src]|]|];
    try discriminate.
  exact IH.
Qed.

(** Closed side conditions on the sample frames are settled by
    evaluation. *)
Ltac by_eval :=
  vm_compute; repeat split;
  solve [reflexivity | discriminate | intros; discriminate].

(** ** Claims about ReadFrom *)

(** What [ReadFrom] does with the frames it is meant for.  For a received
    frame that passes the header checks and matches the bound address, and
    whose declared IP total length covers the IP header and the 8 bytes of
    UDP header, [ReadFrom] takes the payload length to be the IP total
    length minus the IP header length minus the UDP header length (the UDP
    length field is never read).  It returns the number of bytes copied,
    at most [len(b)], with the sender address (IP source address, UDP
    source port) and no error.  When the declared datagram lies within the
    received bytes, the bytes copied are the first
    [min(len(b), payload length)] bytes after the headers, so what follows
    the declared payload is left out. *)
Theorem ReadFrom_copies_declared_payload :
  forall bound b d pending,
    let f := received b d in
    let hl := frameHeaderLength f in
    ipv4MinimumSize <= zlen f ->
    10 <= hl ->
    frameProtocol f = udpProtocolNumber ->
    hl + udpMinimumSize <= zlen f ->
    udpMatch (frameDst f) bound = true ->
    hl + udpMinimumSize <= frameTotalLength f ->
    let dhcpLen := frameTotalLength f - hl - udpMinimumSize in
    exists n,
      ReadFrom (mkBroadcastRawUDPConn (Frame d :: pending) bound) b =
      (Returned (Z.of_nat n) (firstn n (frameBody f) ++ skipn n b)
         (Some (frameSrc f)) None,
       mkBroadcastRawUDPConn pending bound)
      /\ Z.of_nat n <= zlen b
      /\ Z.of_nat n <= dhcpLen
      /\ (frameTotalLength f <= zlen f ->
          n = Nat.min (length b) (Z.to_nat dhcpLen)).
Proof.
  intros bound b d pending f hl Hmin Hhl Hproto Hudp Hmatch Htotal dhcpLen.
  rewrite ReadFrom_unfold. cbn [boundAddr PacketConn].
  pose proof (frameHeaderLength_range f) as Hr. fold hl in Hr.
  rewrite ReadFrom_loop_matching; fold f; fold hl; try assumption.
  assert (Hd : frameDhcpLen f = dhcpLen).
  { unfold dhcpLen. rewrite frameDhcpLen_declared; fold hl;
      unfold udpMinimumSize in *; lia. }
  assert (Hbody : zlen (frameBody f) = zlen f - hl - udpMinimumSize).
  { apply length_frameBody. exact Hudp. }
  rewrite Hd. unfold udpMinimumSize in *.
  replace (dhcpLen <? 0) with false
    by (symmetry; apply Z.ltb_ge; unfold dhcpLen; lia).
  cbn zeta. cbn [fst snd].
  destruct (Z.leb_spec dhcpLen (zlen (frameBody f))) as [Hin|Hout].
  - assert (Hlen : length (firstn (Z.to_nat dhcpLen) (frameBody f))
                   = Z.to_nat dhcpLen).
    { rewrite length_firstn. unfold zlen in *. unfold dhcpLen. lia. }
    rewrite Hlen. set (n := Nat.min (length b) (Z.to_nat dhcpLen)).
    exists n. rewrite firstn_firstn.
    replace (Nat.min n (Z.to_nat dhcpLen)) with n by (unfold n; lia).
    repeat split; unfold n, zlen, dhcpLen in *; lia.
  - exists 0%nat. cbn [length]. rewrite Nat.min_0_r.
    repeat split; unfold zlen, dhcpLen in *; lia.
Qed.

Lemma ReadFrom_copies_declared_payload_witness :
  ReadFrom (mkBroadcastRawUDPConn [Frame ackFrame] bound68) buf16 =
  (Returned 8
     ([x44; x48; x43; x50; x41; x43; x4b; x21] ++ repeat x00 8)
     (Some (mkUDPAddr (Some [xc0; xa8; x01; x01]) 67)) None,
   mkBroadcastRawUDPConn [] bound68).
Proof.
  destruct (ReadFrom_copies_declared_payload bound68 buf16 ackFrame []
              ltac:(by_eval) ltac:(by_eval) ltac:(by_eval) ltac:(by_eval)
              ltac:(by_eval) ltac:(by_eval))
    as (n & Hrun & _ & _ & Hn).
  rewrite (Hn ltac:(by_eval)) in Hrun. exact Hrun.
Defined.

(** C10. When a frame passes the header checks and matches the bound
    address but the payload length computed from its IP total length is
    more than the bytes received after the headers (as when the total
    length exceeds the length of the frame), [ReadFrom] returns count 0,
    the sender address and a nil error, and leaves the caller's buffer as
    it was: the frame is neither discarded nor partly delivered nor
    reported as an error. *)
Theorem ReadFrom_underfull_payload_returns_zero :
  forall bound b d pending,
    let f := received b d in
    ipv4MinimumSize <= zlen f ->
    10 <= frameHeaderLength f ->
    frameHeaderLength f + udpMinimumSize <= zlen f ->
    frameProtocol f = udpProtocolNumber ->
    udpMatch (frameDst f) bound = true ->
    zlen f < frameTotalLength f \/ zlen (frameBody f) < frameDhcpLen f ->
    ReadFrom (mkBroadcastRawUDPConn (Frame d :: pending) bound) b =
    (Returned 0 b (Some (frameSrc f)) None,
     mkBroadcastRawUDPConn pending bound).
Proof.
  intros bound b d pending f Hmin Hhl Hudp Hproto Hmatch Hunder.
  rewrite ReadFrom_unfold. cbn [boundAddr PacketConn].
  rewrite ReadFrom_loop_matching; fold f; try assumption.
  pose proof (frameHeaderLength_range f) as Hr.
  assert (Hbody : zlen (frameBody f) = zlen f - frameHeaderLength f - 8).
  { apply length_frameBody. exact Hudp. }
  assert (Hlong : zlen (frameBody f) < frameDhcpLen f).
  { destruct Hunder as [Htotal|Hlong]; [|exact Hlong].
    unfold udpMinimumSize in *.
    rewrite frameDhcpLen_declared by lia. unfold udpMinimumSize. lia. }
  assert (Hpos : 0 <= zlen (frameBody f)) by (unfold zlen; lia).
  replace (frameDhcpLen f <? 0) with false
    by (symmetry; apply Z.ltb_ge; lia).
  replace (frameDhcpLen f <=? zlen (frameBody f)) with false
    by (symmetry; apply Z.leb_gt; lia).
  cbn zeta. cbn [fst snd length]. rewrite Nat.min_0_r. reflexivity.
Qed.

Lemma ReadFrom_underfull_payload_returns_zero_witness :
  ReadFrom (mkBroadcastRawUDPConn [Frame underfullFrame] bound68) buf16 =
  (Returned 0 buf16 (Some (mkUDPAddr (Some [xc0; xa8; x01; x01]) 67)) None,
   mkBroadcastRawUDPConn [] bound68).
Proof.
  refine (ReadFrom_underfull_payload_returns_zero bound68 buf16
            underfullFrame [] _ _ _ _ _ (or_introl _)); by_eval.
Defined.

(** C7. A read of zero bytes on the raw socket makes [ReadFrom] return
    [io.EOF] at once, and any error of the raw socket's read is returned
    as it is; in both cases the count is 0, the address is nil, the
    caller's buffer is untouched and no further read is made. *)
Theorem ReadFrom_zero_read_is_EOF :
  forall bound b pending,
    ReadFrom (mkBroadcastRawUDPConn (Frame [] :: pending) bound) b =
    (Returned 0 b None (Some EOF), mkBroadcastRawUDPConn pending bound)
    /\ forall e,
        ReadFrom (mkBroadcastRawUDPConn (ReadErr e :: pending) bound) b =
        (Returned 0 b None (Some e), mkBroadcastRawUDPConn pending bound).
Proof.
  intros bound b pending. split.
  - rewrite ReadFrom_unfold. cbn [boundAddr PacketConn].
    rewrite ReadFrom_loop_frame.
    replace (received b []) with (@nil byte)
      by (unfold received; now rewrite firstn_nil).
    reflexivity.
  - intros e. reflexivity.
Qed.

(** C1, on the code: a frame that passes the four header checks and
    matches the bound address, but whose IP total length of 24 ends
    inside the UDP header, gives a payload length of 24 - 20 - 8 = -4:
    [ReadFrom] panics in [buf.Consume(dhcpLen)] and returns neither a
    count nor the sender. *)
Theorem ReadFrom_panics_on_matching_frame :
  let f := received buf16 shortTotalFrame in
  (ipv4MinimumSize <=? zlen f) = true
  /\ frameHeaderLength f = 20
  /\ frameProtocol f = udpProtocolNumber
  /\ (frameHeaderLength f + udpMinimumSize <=? zlen f) = true
  /\ udpMatch (frameDst f) bound68 = true
  /\ frameTotalLength f - frameHeaderLength f - udpMinimumSize = -4
  /\ ReadFrom (mkBroadcastRawUDPConn [Frame shortTotalFrame] bound68) buf16
     = (Panicked, mkBroadcastRawUDPConn [] bound68).
Proof. repeat split; reflexivity. Qed.

(** C5, on the code: a frame that passes the header checks and matches the
    bound address but declares an IP total length of 20, the header alone,
    gives [dhcpLen = -8], and [ReadFrom] panics in [buf.Consume(dhcpLen)]
    instead of clamping the length or discarding the frame. *)
Theorem ReadFrom_panics_on_negative_payload_length :
  frameDhcpLen (received buf16 headerOnlyFrame) = -8
  /\ ReadFrom (mkBroadcastRawUDPConn [Frame headerOnlyFrame] bound68) buf16
     = (Panicked, mkBroadcastRawUDPConn [] bound68).
Proof. split; reflexivity. Qed.

(** C6, on the code: a 20-byte frame whose protocol field is 1, not UDP,
    and whose first byte declares a header of zero words is not discarded:
    [ReadFrom] panics reading the protocol byte of the empty header it
    consumed. *)
Theorem ReadFrom_panics_on_header_below_protocol :
  frameProtocol (received buf16 zeroIHLFrame) = 1
  /\ frameHeaderLength (received buf16 zeroIHLFrame) = 0
  /\ ReadFrom (mkBroadcastRawUDPConn [Frame zeroIHLFrame] bound68) buf16
     = (Panicked, mkBroadcastRawUDPConn [] bound68).
Proof. repeat split; reflexivity. Qed.

(** ** Claims about udpMatch *)

(** C2. An absent bound address matches every destination; a bound
    address with a nil IP matches exactly the destinations on its port,
    whatever their IP; a bound address with a non-nil IP never matches a
    destination on another port, whatever the IPs.  So [{nil, 68}] accepts
    every IP on port 68 and rejects port 67, and [{10.0.0.5, 68}] rejects
    10.0.0.6:68. *)
Theorem udpMatch_semantics :
  (forall addr, udpMatch addr None = true)
  /\ (forall addr port,
        udpMatch addr (Some (mkUDPAddr None port)) = (port =? Port addr))
  /\ (forall addr ip port,
        port <> Port addr ->
        udpMatch addr (Some (mkUDPAddr (Some ip) port)) = false)
  /\ (forall ip, udpMatch (mkUDPAddr ip 68) bound68 = true)
  /\ (forall ip, udpMatch (mkUDPAddr ip 67) bound68 = false)
  /\ udpMatch (mkUDPAddr ip_10_0_0_6 68) (Some (mkUDPAddr ip_10_0_0_5 68))
     = false.
Proof.
  repeat split; try reflexivity.
  intros addr ip port Hport. unfold udpMatch. cbn [IP Port andb].
  destruct (negb (IP_Equal (Some ip) (IP addr))); [reflexivity|].
  now apply Z.eqb_neq.
Qed.

Lemma udpMatch_semantics_witness :
  67 <> 68
  /\ udpMatch (mkUDPAddr ip_10_0_0_5 68) (Some (mkUDPAddr ip_10_0_0_5 67))
     = false.
Proof.
  split; [discriminate|].
  destruct udpMatch_semantics as (_ & _ & Hport & _).
  apply (Hport (mkUDPAddr ip_10_0_0_5 68) [x0a; x00; x00; x05] 67).
  discriminate.
Defined.

(** ** Claims about address resolution *)

Lemma neighLookup_first ip neighList hw :
  neighLookup ip neighList = Some hw ->
  exists pre hit post,
    neighList = pre ++ hit :: post
    /\ (forall neigh, In neigh pre -> neighMatches ip neigh = false)
    /\ neighMatches ip hit = true
    /\ hw = netlink.HardwareAddr hit.
Proof.
  induction neighList as [|neigh rest IH]; cbn [neighLookup]; [discriminate|].
  destruct (neighMatches ip neigh) eqn:Hm.
  - intros [= <-]. exists [], neigh, rest. repeat split; auto.
    intros ? [].
  - intros H. destruct (IH H) as (pre & hit & post & -> & Hpre & Hhit & ->).
    exists (neigh :: pre), hit, post. repeat split; auto.
    intros x [<-|Hx]; auto.
Qed.

Lemma neighLookup_some ip neighList neigh :
  In neigh neighList -> neighMatches ip neigh = true ->
  exists hw, neighLookup ip neighList = Some hw.
Proof.
  induction neighList as [|n rest IH]; cbn [neighLookup In]; [tauto|].
  intros [->|Hin] Hm.
  - rewrite Hm. eauto.
  - destruct (neighMatches ip n); eauto.
Qed.

Lemma neighLookup_none ip neighList :
  (forall neigh, In neigh neighList -> neighMatches ip neigh = false) ->
  neighLookup ip neighList = None.
Proof.
  induction neighList as [|n rest IH]; cbn [neighLookup]; [reflexivity|].
  intros H. rewrite (H n (or_introl eq_refl)). apply IH.
  intros x Hx. apply H. now right.
Qed.

Lemma neighMatches_true ip neigh :
  neighMatches ip neigh = true <->
  IP_Equal ip (netlink.IP neigh) = true /\ netlink.HardwareAddr neigh <> None.
Proof.
  unfold neighMatches. rewrite andb_true_iff.
  destruct (netlink.HardwareAddr neigh); cbn [is_nil negb].
  - split; intros [H _]; split; auto; discriminate.
  - split; intros [_ H]; [discriminate H|now destruct H].
Qed.

Lemma neighMatches_false ip neigh :
  neighMatches ip neigh = false <->
  IP_Equal ip (netlink.IP neigh) = false \/ netlink.HardwareAddr neigh = None.
Proof.
  unfold neighMatches. rewrite andb_false_iff.
  destruct (netlink.HardwareAddr neigh); cbn [is_nil negb].
  - split; intros [H|H]; auto; discriminate H.
  - split; intros _; auto.
Qed.

(** C3, as the code has it.  If the kernel's listing of the reachable
    IPv4 neighbours fails, [getHwAddr] returns the listing's error and
    calls nothing else.  If the listing succeeds and holds an entry whose
    IP is [Equal] to the target and whose link address is not nil (it may
    be empty), [getHwAddr] returns the link address of the first such
    entry, having called nothing but the listing: no route lookup, no ARP
    exchange.  If it holds none, [getHwAddr] looks the route up and fails
    when the lookup fails or yields no route; otherwise it opens the
    interface of the first route's link index, dials an ARP client on it,
    failing when either fails, and returns what the client's exchange for
    the target IP returns, result or error. *)
Theorem getHwAddr_algorithm :
  forall env ip,
    (forall e,
        env_NeighListExecute env reachableV4 = Err e ->
        run (getHwAddr env ip) = (Err e, [EvNeighListExecute reachableV4]))
    /\ (forall neighList,
          env_NeighListExecute env reachableV4 = Ok neighList ->
          (forall neigh,
              In neigh neighList ->
              IP_Equal ip (netlink.IP neigh) = true ->
              netlink.HardwareAddr neigh <> None ->
              exists pre hit post,
                neighList = pre ++ hit :: post
                /\ (forall n,
                       In n pre ->
                       IP_Equal ip (netlink.IP n) = false
                       \/ netlink.HardwareAddr n = None)
                /\ IP_Equal ip (netlink.IP hit) = true
                /\ netlink.HardwareAddr hit <> None
                /\ run (getHwAddr env ip)
                   = (Ok (netlink.HardwareAddr hit),
                      [EvNeighListExecute reachableV4]))
          /\ ((forall neigh,
                  In neigh neighList ->
                  IP_Equal ip (netlink.IP neigh) = false
                  \/ netlink.HardwareAddr neigh = None) ->
              (forall e,
                  env_RouteGet env ip = Err e ->
                  run (getHwAddr env ip)
                  = (Err e, [EvNeighListExecute reachableV4; EvRouteGet ip]))
              /\ (env_RouteGet env ip = Ok [] ->
                  run (getHwAddr env ip)
                  = (Err (ErrNoRoute ip),
                     [EvNeighListExecute reachableV4; EvRouteGet ip]))
              /\ (forall r0 routes,
                     env_RouteGet env ip = Ok (r0 :: routes) ->
                     let index := netlink.LinkIndex r0 in
                     (forall e,
                         env_InterfaceByIndex env index = Err e ->
                         run (getHwAddr env ip)
                         = (Err e,
                            [EvNeighListExecute reachableV4; EvRouteGet ip;
                             EvInterfaceByIndex index]))
                     /\ (forall ifc,
                            env_InterfaceByIndex env index = Ok ifc ->
                            (forall e,
                                env_Dial env ifc = Err e ->
                                run (getHwAddr env ip)
                                = (Err e,
                                   [EvNeighListExecute reachableV4;
                                    EvRouteGet ip; EvInterfaceByIndex index;
                                    EvDial ifc]))
                            /\ (forall c,
                                   env_Dial env ifc = Ok c ->
                                   run (getHwAddr env ip)
                                   = (env_Resolve env c ip,
                                      [EvNeighListExecute reachableV4;
                                       EvRouteGet ip;
                                       EvInterfaceByIndex index; EvDial ifc;
                                       EvResolve c ip])))))).
Proof.
  intros env ip. split.
  { intros e He. unfold run, getHwAddr, io_bind, call, io_ret.
    rewrite He. reflexivity. }
  intros neighList Hlist. split.
  - intros neigh Hin Hip Hhw.
    assert (Hm : neighMatches ip neigh = true)
      by (apply neighMatches_true; auto).
    destruct (neighLookup_some ip neighList neigh Hin Hm) as [hw Hfound].
    destruct (neighLookup_first ip neighList hw Hfound)
      as (pre & hit & post & Heq & Hpre & Hhit & ->).
    apply neighMatches_true in Hhit. destruct Hhit as [Hhip Hhhw].
    exists pre, hit, post. repeat split; auto.
    + intros n Hn. apply neighMatches_false. auto.
    + unfold run, getHwAddr, io_bind, call. rewrite Hlist, Hfound.
      reflexivity.
  - intros Hnone.
    assert (Hl : neighLookup ip neighList = None).
    { apply neighLookup_none. intros n Hn. apply neighMatches_false. auto. }
    unfold run, getHwAddr, arpResolve, io_bind, call, io_ret.
    rewrite Hlist, Hl. cbn [app].
    split; [|split].
    + intros e ->. reflexivity.
    + intros ->. reflexivity.
    + intros r0 routes ->. split.
      * intros e ->. reflexivity.
      * intros ifc ->. split.
        -- intros e ->. reflexivity.
        -- intros c ->. reflexivity.
Qed.

Lemma getHwAddr_algorithm_witness :
  run (getHwAddr envNoNetlink ip_10_0_0_5)
  = (Err (ErrExternal "operation not permitted"),
     [EvNeighListExecute reachableV4])
  /\ (exists pre hit post,
         [netlink.mkNeigh ip_10_0_0_6 None;
          netlink.mkNeigh ip_10_0_0_5 sampleMac]
         = pre ++ hit :: post
         /\ (forall n,
                In n pre ->
                IP_Equal ip_10_0_0_5 (netlink.IP n) = false
                \/ netlink.HardwareAddr n = None)
         /\ IP_Equal ip_10_0_0_5 (netlink.IP hit) = true
         /\ netlink.HardwareAddr hit <> None
         /\ run (getHwAddr envNeighbour ip_10_0_0_5)
            = (Ok (netlink.HardwareAddr hit),
               [EvNeighListExecute reachableV4]))
  /\ run (getHwAddr envArp ip_10_0_0_5)
     = (Ok sampleMac,
        [EvNeighListExecute reachableV4; EvRouteGet ip_10_0_0_5;
         EvInterfaceByIndex 2; EvDial (mkInterface 2);
         EvResolve (mkArpClient (mkInterface 2)) ip_10_0_0_5]).
Proof.
  split; [|split].
  - exact (proj1 (getHwAddr_algorithm envNoNetlink ip_10_0_0_5)
             (ErrExternal "operation not permitted") eq_refl).
  - apply (proj1 (proj2 (getHwAddr_algorithm envNeighbour ip_10_0_0_5)
                    _ eq_refl)
             (netlink.mkNeigh ip_10_0_0_5 sampleMac)).
    + right. left. reflexivity.
    + reflexivity.
    + discriminate.
  - destruct (proj2 (getHwAddr_algorithm envArp ip_10_0_0_5) [] eq_refl)
      as [_ Hmiss].
    destruct (Hmiss (fun _ (H : False) => match H with end))
      as (_ & _ & Hroute).
    destruct (Hroute (netlink.mkRoute 2) [] eq_refl) as [_ Hifc].
    destruct (Hifc (mkInterface 2) eq_refl) as [_ Hdial].
    exact (Hdial (mkArpClient (mkInterface 2)) eq_refl).
Defined.

(** C3, as worded, fails on the code.  With 10.0.0.5 listed only with an
    empty (non-nil) link address, no entry has a non-empty address, yet
    the empty address is returned at once and no route lookup is made;
    with that entry ahead of one holding a usable address, the table
    holds a matching entry with a non-empty address, yet the empty address
    is what is returned; and when the listing itself fails, no route
    lookup is made either. *)
Lemma getHwAddr_as_worded_counterexample :
  ~ resolvesAsWorded envEmptyAddr ip_10_0_0_5 emptyAddrTable
  /\ ~ resolvesAsWorded envShadowed ip_10_0_0_5 shadowedTable
  /\ run (getHwAddr envEmptyAddr ip_10_0_0_5)
     = (Ok (Some []), [EvNeighListExecute reachableV4])
  /\ run (getHwAddr envShadowed ip_10_0_0_5)
     = (Ok (Some []), [EvNeighListExecute reachableV4])
  /\ ~ In (EvRouteGet ip_10_0_0_5)
         (snd (run (getHwAddr envNoNetlink ip_10_0_0_5))).
Proof.
  split; [|split; [|split; [|split]]]; try reflexivity.
  - intros [_ Hroute].
    assert (Hin : In (EvRouteGet ip_10_0_0_5)
                    (snd (run (getHwAddr envEmptyAddr ip_10_0_0_5)))).
    { apply Hroute. intros neigh [<-|[]]. reflexivity. }
    destruct Hin as [H|[]]. discriminate H.
  - intros [Hhit _].
    destruct (Hhit (netlink.mkNeigh ip_10_0_0_5 sampleMac))
      as (hit & _ & _ & Hne & Hrun); try reflexivity.
    { right. left. reflexivity. }
    injection Hrun as Hhw. rewrite <- Hhw in Hne. discriminate Hne.
  - intros [H|[]]. discriminate H.
Qed.


(** ** Claims about WriteTo *)

(** Resolution calls the neighbour table, the routes and the ARP client,
    never the raw socket. *)
Lemma getHwAddr_no_socket_write env ip :
  socketWrites (snd (run (getHwAddr env ip))) = [].
Proof.
  unfold run, getHwAddr, arpResolve, io_bind, call, io_ret.
  destruct (env_NeighListExecute env reachableV4) as [neighList|e]; [|reflexivity].
  destruct (neighLookup ip neighList); [reflexivity|]. cbn [app].
  destruct (env_RouteGet env ip) as [[|r0 routes]|e]; try reflexivity.
  destruct (env_InterfaceByIndex env (netlink.LinkIndex r0)) as [ifc|e];
    [|reflexivity].
  destruct (env_Dial env ifc) as [c|e]; reflexivity.
Qed.

Lemma Unicast_WriteTo_run (framer : Framer) env upc b udpAddr packet :
  framer b udpAddr (boundAddr (embedded upc)) = Val packet ->
  run (UnicastRawUDPConn_WriteTo framer env upc b (Some (AddrUDP udpAddr))) =
  match fst (run (getHwAddr env (IP udpAddr))) with
  | Err _ =>
      (Val (0, Some ErrHWAddrNotFound),
       snd (run (getHwAddr env (IP udpAddr))))
  | Ok dstMac =>
      (Val (env_WriteTo env packet dstMac),
       snd (run (getHwAddr env (IP udpAddr))) ++ [EvWriteTo packet dstMac])
  end.
Proof.
  intros Hpkt. unfold UnicastRawUDPConn_WriteTo. rewrite Hpkt.
  unfold run, io_bind.
  destruct (getHwAddr env (IP udpAddr) []) as [[dstMac|e] tr]; reflexivity.
Qed.

(** C4. When framing succeeds, unicast [WriteTo] to a [*net.UDPAddr]
    first resolves the destination IP.  If resolution fails it returns
    [(0, ErrHWAddrNotFound)] and the raw socket is never written, neither
    to the broadcast address nor to any other; if it succeeds, the framed
    packet is written once, after the resolution calls, to the resolved
    link address, and the socket's result is returned. *)
Theorem Unicast_WriteTo_resolves_before_sending :
  forall (framer : Framer) env upc b udpAddr packet,
    framer b udpAddr (boundAddr (embedded upc)) = Val packet ->
    let resolution := run (getHwAddr env (IP udpAddr)) in
    let sent :=
      run (UnicastRawUDPConn_WriteTo framer env upc b
             (Some (AddrUDP udpAddr))) in
    socketWrites (snd resolution) = []
    /\ (forall e,
           fst resolution = Err e ->
           sent = (Val (0, Some ErrHWAddrNotFound), snd resolution)
           /\ socketWrites (snd sent) = [])
    /\ (forall dstMac,
           fst resolution = Ok dstMac ->
           sent = (Val (env_WriteTo env packet dstMac),
                   snd resolution ++ [EvWriteTo packet dstMac])
           /\ socketWrites (snd sent) = [EvWriteTo packet dstMac]).
Proof.
  intros framer env upc b udpAddr packet Hpkt resolution sent.
  pose proof (getHwAddr_no_socket_write env (IP udpAddr)) as Hquiet.
  fold resolution in Hquiet.
  assert (Hsent := Unicast_WriteTo_run framer env upc b udpAddr packet Hpkt).
  fold resolution in Hsent. fold sent in Hsent.
  split; [exact Hquiet|]. split.
  - intros e He. rewrite He in Hsent. rewrite Hsent. cbn [snd]. auto.
  - intros dstMac Hok. rewrite Hok in Hsent. rewrite Hsent. cbn [snd].
    split; [reflexivity|].
    unfold socketWrites in *. rewrite filter_app, Hquiet. reflexivity.
Qed.

Lemma Unicast_WriteTo_resolves_before_sending_witness :
  run (UnicastRawUDPConn_WriteTo udp4pkt envNoRoute
         (mkUnicastRawUDPConn conn68) payload4
         (Some (AddrUDP (mkUDPAddr ip_10_0_0_5 67))))
  = (Val (0, Some ErrHWAddrNotFound),
     [EvNeighListExecute reachableV4; EvRouteGet ip_10_0_0_5])
  /\ socketWrites
       (snd (run (UnicastRawUDPConn_WriteTo udp4pkt envNoRoute
                    (mkUnicastRawUDPConn conn68) payload4
                    (Some (AddrUDP (mkUDPAddr ip_10_0_0_5 67)))))) = [].
Proof.
  destruct (Unicast_WriteTo_resolves_before_sending udp4pkt envNoRoute
              (mkUnicastRawUDPConn conn68) payload4
              (mkUDPAddr ip_10_0_0_5 67) _ eq_refl) as (_ & Hfail & _).
  exact (Hfail (ErrNoRoute ip_10_0_0_5) eq_refl).
Defined.

(** C8. In both modes, [WriteTo] with a destination that is not a
    [*net.UDPAddr] (a nil interface or any other address type) returns
    [(0, ErrUDPAddrIsRequired)] and calls nothing: no framing, no
    resolution, no socket write. *)
Theorem WriteTo_requires_UDPAddr :
  forall (framer : Framer) env bupc uupc b addr,
    (forall udpAddr, addr <> Some (AddrUDP udpAddr)) ->
    run (BroadcastRawUDPConn_WriteTo framer env bupc b addr)
    = (Val (0, Some ErrUDPAddrIsRequired), [])
    /\ run (UnicastRawUDPConn_WriteTo framer env uupc b addr)
       = (Val (0, Some ErrUDPAddrIsRequired), []).
Proof.
  intros framer env bupc uupc b addr Hnot.
  destruct addr as [[udpAddr|hw|ip|network str]|];
    try (split; reflexivity).
  now destruct (Hnot udpAddr).
Qed.

Lemma WriteTo_requires_UDPAddr_witness :
  run (BroadcastRawUDPConn_WriteTo udp4pkt envArp conn68 payload4
         (Some (AddrIP ip_10_0_0_5)))
  = (Val (0, Some ErrUDPAddrIsRequired), [])
  /\ run (UnicastRawUDPConn_WriteTo udp4pkt envArp
            (mkUnicastRawUDPConn conn68) payload4 (Some (AddrIP ip_10_0_0_5)))
     = (Val (0, Some ErrUDPAddrIsRequired), []).
Proof.
  apply (WriteTo_requires_UDPAddr udp4pkt envArp conn68
           (mkUnicastRawUDPConn conn68) payload4 (Some (AddrIP ip_10_0_0_5))).
  intros udpAddr H. discriminate H.
Defined.

Lemma length_putAddr a : length (putAddr a) = 4%nat.
Proof.
  unfold putAddr. rewrite length_firstn, length_app, repeat_length. lia.
Qed.

Lemma udp4pkt_length b dest src :
  exists packet,
    udp4pkt b dest (Some src) = Val packet
    /\ zlen packet = ipv4MinimumSize + udpMinimumSize + zlen b.
Proof.
  eexists. split; [reflexivity|].
  unfold zlen, ipv4MinimumSize, udpMinimumSize.
  rewrite !length_app, !length_putAddr. cbn [length putUint16]. lia.
Qed.

(** C9. With a bound address to frame from, [WriteTo] to a [*net.UDPAddr]
    hands the raw socket a packet of [20 + 8 + len(b)] bytes and returns
    the socket's own result for that packet, in broadcast mode and, once
    the destination is resolved, in unicast mode.  A write the socket
    reports whole therefore returns [len(b) + 28], not [len(b)]. *)
Theorem WriteTo_returns_socket_count :
  forall env upc src b udpAddr,
    boundAddr upc = Some src ->
    exists packet,
      udp4pkt b udpAddr (boundAddr upc) = Val packet
      /\ zlen packet = ipv4MinimumSize + udpMinimumSize + zlen b
      /\ fst (run (BroadcastRawUDPConn_WriteTo udp4pkt env upc b
                     (Some (AddrUDP udpAddr))))
         = Val (env_WriteTo env packet BroadcastMac)
      /\ (forall dstMac,
             fst (run (getHwAddr env (IP udpAddr))) = Ok dstMac ->
             fst (run (UnicastRawUDPConn_WriteTo udp4pkt env
                         (mkUnicastRawUDPConn upc) b
                         (Some (AddrUDP udpAddr))))
             = Val (env_WriteTo env packet dstMac))
      /\ (forall err,
             env_WriteTo env packet BroadcastMac = (zlen packet, err) ->
             fst (run (BroadcastRawUDPConn_WriteTo udp4pkt env upc b
                         (Some (AddrUDP udpAddr))))
             = Val (zlen b + 28, err))
      /\ (forall dstMac err,
             fst (run (getHwAddr env (IP udpAddr))) = Ok dstMac ->
             env_WriteTo env packet dstMac = (zlen packet, err) ->
             fst (run (UnicastRawUDPConn_WriteTo udp4pkt env
                         (mkUnicastRawUDPConn upc) b
                         (Some (AddrUDP udpAddr))))
             = Val (zlen b + 28, err)).
Proof.
  intros env upc src b udpAddr Hbound.
  destruct (udp4pkt_length b udpAddr src) as (packet & Hpkt & Hlen).
  assert (H28 : zlen packet = zlen b + 28)
    by (rewrite Hlen; unfold ipv4MinimumSize, udpMinimumSize; lia).
  assert (Hb : fst (run (BroadcastRawUDPConn_WriteTo udp4pkt env upc b
                           (Some (AddrUDP udpAddr))))
               = Val (env_WriteTo env packet BroadcastMac)).
  { unfold BroadcastRawUDPConn_WriteTo. rewrite Hbound, Hpkt. reflexivity. }
  assert (Hu : forall dstMac,
             fst (run (getHwAddr env (IP udpAddr))) = Ok dstMac ->
             fst (run (UnicastRawUDPConn_WriteTo udp4pkt env
                         (mkUnicastRawUDPConn upc) b
                         (Some (AddrUDP udpAddr))))
             = Val (env_WriteTo env packet dstMac)).
  { intros dstMac Hok.
    rewrite (Unicast_WriteTo_run udp4pkt env (mkUnicastRawUDPConn upc) b
               udpAddr packet) by (cbn [embedded]; now rewrite Hbound).
    rewrite Hok. reflexivity. }
  exists packet. rewrite Hbound.
  split; [exact Hpkt|]. split; [exact Hlen|]. split; [exact Hb|].
  split; [exact Hu|]. split.
  - intros err Herr. rewrite Hb, Herr, H28. reflexivity.
  - intros dstMac err Hok Herr. rewrite (Hu dstMac Hok), Herr, H28.
    reflexivity.
Qed.

Lemma WriteTo_returns_socket_count_witness :
  fst (run (BroadcastRawUDPConn_WriteTo udp4pkt envArp conn68 payload4
              (Some (AddrUDP (mkUDPAddr ip_10_0_0_5 67)))))
  = Val (32, None)
  /\ fst (run (UnicastRawUDPConn_WriteTo udp4pkt envArp
                 (mkUnicastRawUDPConn conn68) payload4
                 (Some (AddrUDP (mkUDPAddr ip_10_0_0_5 67)))))
     = Val (32, None).
Proof.
  destruct (WriteTo_returns_socket_count envArp conn68 (mkUDPAddr None 68)
              payload4 (mkUDPAddr ip_10_0_0_5 67) eq_refl)
    as (packet & Hpkt & Hlen & _ & _ & Hb & Hu).
  assert (Hsock : forall hw, env_WriteTo envArp packet hw
                             = (zlen packet, None)) by reflexivity.
  split.
  - exact (Hb None (Hsock BroadcastMac)).
  - exact (Hu sampleMac None eq_refl (Hsock sampleMac)).
Defined.

(** ** Send and receive agree

    A packet framed by [udp4pkt] and read back by a connection bound to
    its destination port is delivered whole, with the framing connection's
    bound address as sender. *)
Example udp4pkt_ReadFrom_roundtrip :
  forall packet,
    udp4pkt payload4 (mkUDPAddr ip_10_0_0_5 68)
      (Some (mkUDPAddr ip_10_0_0_6 67)) = Val packet ->
    ReadFrom (mkBroadcastRawUDPConn [Frame packet] bound68) buf16 =
    (Returned 4 (payload4 ++ repeat x00 12)
       (Some (mkUDPAddr ip_10_0_0_6 67)) None,
     mkBroadcastRawUDPConn [] bound68).
Proof. intros packet [= <-]. reflexivity. Qed.

(** * Further properties *)

(** ** Frame fields under appended bytes *)

Lemma u8_app_l f t i :
  0 <= i < zlen f -> u8 (f ++ t) i = u8 f i.
Proof.
  intros H. unfold u8, zlen in *. rewrite app_nth1 by lia. reflexivity.
Qed.

Lemma be16_app_l f t i :
  0 <= i -> i + 1 < zlen f -> be16 (f ++ t) i = be16 f i.
Proof.
  intros H0 H1. unfold be16. rewrite !u8_app_l by lia. reflexivity.
Qed.

Lemma bytesAt_app_l f t i n :
  0 <= i -> 0 <= n -> i + n <= zlen f ->
  bytesAt (f ++ t) i n = bytesAt f i n.
Proof.
  intros Hi Hn H. unfold bytesAt, zlen in *.
  rewrite skipn_app, firstn_app, length_skipn.
  replace (Z.to_nat n - (length f - Z.to_nat i))%nat with 0%nat by lia.
  rewrite firstn_O, app_nil_r. reflexivity.
Qed.

Lemma frameHeaderLength_app_l f t :
  1 <= zlen f -> frameHeaderLength (f ++ t) = frameHeaderLength f.
Proof.
  intros H. unfold frameHeaderLength. rewrite u8_app_l by lia. reflexivity.
Qed.

Lemma frameProtocol_app_l f t :
  10 <= zlen f -> frameProtocol (f ++ t) = frameProtocol f.
Proof.
  intros H. unfold frameProtocol. rewrite u8_app_l by lia. reflexivity.
Qed.

Lemma frameTotalLength_app_l f t :
  4 <= zlen f -> frameTotalLength (f ++ t) = frameTotalLength f.
Proof.
  intros H. unfold frameTotalLength. rewrite be16_app_l by lia. reflexivity.
Qed.

Lemma frameDhcpLen_app_l f t :
  4 <= zlen f -> frameDhcpLen (f ++ t) = frameDhcpLen f.
Proof.
  intros H. unfold frameDhcpLen.
  rewrite frameTotalLength_app_l, frameHeaderLength_app_l by lia.
  reflexivity.
Qed.

Lemma frameSrc_app_l f t :
  20 <= zlen f -> frameHeaderLength f + 2 <= zlen f ->
  frameSrc (f ++ t) = frameSrc f.
Proof.
  intros H Hh. pose proof (frameHeaderLength_range f).
  unfold frameSrc.
  rewrite frameHeaderLength_app_l, bytesAt_app_l, be16_app_l by lia.
  reflexivity.
Qed.

Lemma frameDst_app_l f t :
  20 <= zlen f -> frameHeaderLength f + 4 <= zlen f ->
  frameDst (f ++ t) = frameDst f.
Proof.
  intros H Hh. pose proof (frameHeaderLength_range f).
  unfold frameDst.
  rewrite frameHeaderLength_app_l, bytesAt_app_l, be16_app_l by lia.
  reflexivity.
Qed.

Lemma zlen_app {A : Type} (l l' : list A) : zlen (l ++ l') = zlen l + zlen l'.
Proof. unfold zlen. rewrite length_app. lia. Qed.

Lemma zlen_nonneg {A : Type} (l : list A) : 0 <= zlen l.
Proof. unfold zlen. lia. Qed.

(** A frame that fits the packet buffer is received whole. *)
Lemma received_whole b d :
  zlen d <= ipv4MaximumHeaderSize + udpMinimumSize + zlen b ->
  received b d = d.
Proof.
  intros H. unfold received. apply firstn_all2. unfold zlen in *. lia.
Qed.

(** ** What a delivery looks like *)

Lemma frameSem_delivery bound b f n b' src :
  frameSem bound b f = Val (Some (n, b', src)) ->
  0 <= n <= zlen b
  /\ n <= zlen (frameBody f)
  /\ b' = firstn (Z.to_nat n) (frameBody f) ++ skipn (Z.to_nat n) b
  /\ src = frameSrc f
  /\ ipv4MinimumSize <= zlen f
  /\ udpMatch (frameDst f) bound = true.
Proof.
  unfold frameSem.
  destruct (Z.ltb_spec (zlen f) ipv4MinimumSize); [discriminate|].
  destruct (zlen f <? frameHeaderLength f); [discriminate|].
  destruct (frameHeaderLength f <? 10); [discriminate|].
  destruct (negb (frameProtocol f =? udpProtocolNumber)); [discriminate|].
  destruct (zlen f - frameHeaderLength f <? udpMinimumSize); [discriminate|].
  destruct (udpMatch (frameDst f) bound); cbn [negb]; [|discriminate].
  destruct (Z.ltb_spec (frameDhcpLen f) 0); [discriminate|].
  destruct (Z.leb_spec (frameDhcpLen f) (zlen (frameBody f))) as [Hin|Hout].
  - intros [= <- <- <-].
    assert (Hlen : length (firstn (Z.to_nat (frameDhcpLen f)) (frameBody f))
                   = Z.to_nat (frameDhcpLen f)).
    { rewrite length_firstn. unfold zlen in *. lia. }
    rewrite Hlen, Nat2Z.id, firstn_firstn.
    replace (Nat.min (Nat.min (length b) (Z.to_nat (frameDhcpLen f)))
               (Z.to_nat (frameDhcpLen f)))
      with (Nat.min (length b) (Z.to_nat (frameDhcpLen f))) by lia.
    unfold zlen in *. repeat split; auto; lia.
  - intros [= <- <- <-]. cbn [length]. rewrite Nat.min_0_r.
    unfold zlen in *. repeat split; auto; lia.
Qed.

Lemma length_bytesAt f i n :
  0 <= i -> 0 <= n -> i + n <= zlen f ->
  length (bytesAt f i n) = Z.to_nat n.
Proof.
  intros Hi Hn H. unfold bytesAt, zlen in *.
  rewrite length_firstn, length_skipn. lia.
Qed.

(** Every return of the loop is either an error of the raw socket (or end
    of stream) with nothing delivered, or the delivery of one of the
    frames read. *)
Lemma ReadFrom_loop_returned bound b pending n b' addr err rest :
  ReadFrom_loop bound b pending = (Returned n b' addr err, rest) ->
  (exists e, err = Some e /\ n = 0 /\ addr = None /\ b' = b)
  \/ (err = None
      /\ exists d,
          In (Frame d) pending
          /\ frameSem bound b (received b d)
             = Val (Some (n, b', frameSrc (received b d)))
          /\ addr = Some (frameSrc (received b d))).
Proof.
  revert n b' addr err rest.
  induction pending as [|[d|e] pending IH]; intros n b' addr err rest.
  - discriminate.
  - rewrite ReadFrom_loop_frame.
    destruct (zlen (received b d) =? 0).
    { intros [= <- <- <- <- <-]. left. eauto. }
    destruct (frameSem bound b (received b d))
      as [[[[n0 b0] src0]|]|] eqn:Hsem.
    + intros [= <- <- <- <- <-]. right. split; [reflexivity|].
      exists d. split; [now left|].
      destruct (frameSem_delivery _ _ _ _ _ _ Hsem)
        as (_ & _ & _ & -> & _). auto.
    + intros H. destruct (IH _ _ _ _ _ H) as [Hl|(He & d' & Hin & Hd)].
      * now left.
      * right. split; [exact He|]. exists d'. split; [now right|exact Hd].
    + discriminate.
  - cbn [ReadFrom_loop]. intros [= <- <- <- <- <-]. left. eauto.
Qed.

Lemma ReadFrom_returned upc b n b' addr err upc' :
  ReadFrom upc b = (Returned n b' addr err, upc') ->
  ReadFrom_loop (boundAddr upc) b (PacketConn upc)
  = (Returned n b' addr err, PacketConn upc').
Proof.
  rewrite ReadFrom_unfold.
  destruct (ReadFrom_loop (boundAddr upc) b (PacketConn upc)) as [out rest].
  cbn [fst snd]. intros [= -> <-]. reflexivity.
Qed.

(** ** Further properties of ReadFrom *)

(** X1. Whatever the socket delivers, a call of [ReadFrom] that returns
    reports between 0 and [len(b)] bytes, leaves the caller's buffer at
    its length and changes nothing in it past the count it reports. *)
Theorem ReadFrom_buffer_contract :
  forall upc b n b' addr err upc',
    ReadFrom upc b = (Returned n b' addr err, upc') ->
    0 <= n <= zlen b
    /\ length b' = length b
    /\ skipn (Z.to_nat n) b' = skipn (Z.to_nat n) b.
Proof.
  intros upc b n b' addr err upc' H.
  apply ReadFrom_returned in H.
  destruct (ReadFrom_loop_returned _ _ _ _ _ _ _ _ H)
    as [(e & _ & -> & _ & ->)|(_ & d & _ & Hsem & _)].
  - pose proof (zlen_nonneg b). repeat split; auto; lia.
  - destruct (frameSem_delivery _ _ _ _ _ _ Hsem)
      as (Hn & Hbody & -> & _).
    assert (Hl : length (firstn (Z.to_nat n) (frameBody (received b d)))
                 = Z.to_nat n).
    { rewrite length_firstn. unfold zlen in *. lia. }
    repeat split; try lia.
    + rewrite length_app, Hl, length_skipn. unfold zlen in *. lia.
    + rewrite skipn_app, Hl, Nat.sub_diag, skipn_all2 by lia.
      reflexivity.
Qed.

Lemma ReadFrom_buffer_contract_witness :
  0 <= 4 <= zlen (repeat x00 4)
  /\ length [x44; x48; x43; x50] = length (repeat x00 4)
  /\ skipn (Z.to_nat 4) [x44; x48; x43; x50]
     = skipn (Z.to_nat 4) (repeat x00 4).
Proof.
  exact (ReadFrom_buffer_contract
           (mkBroadcastRawUDPConn [Frame icmpFrame; Frame ackFrame] bound68)
           (repeat x00 4) 4 [x44; x48; x43; x50]
           (Some (mkUDPAddr (Some [xc0; xa8; x01; x01]) 67)) None
           (mkBroadcastRawUDPConn [] bound68) eq_refl).
Defined.

(** X2. A call of [ReadFrom] that returns an error returns count 0 and a
    nil address and has not touched the caller's buffer; one that returns
    no error returns a non-nil sender whose IP has four bytes and whose
    port is a 16-bit number. *)
Theorem ReadFrom_error_or_sender :
  forall upc b n b' addr err upc',
    ReadFrom upc b = (Returned n b' addr err, upc') ->
    (err <> None -> n = 0 /\ addr = None /\ b' = b)
    /\ (err = None ->
        exists ip port,
          addr = Some (mkUDPAddr (Some ip) port)
          /\ length ip = 4%nat /\ 0 <= port < 65536).
Proof.
  intros upc b n b' addr err upc' H.
  apply ReadFrom_returned in H.
  destruct (ReadFrom_loop_returned _ _ _ _ _ _ _ _ H)
    as [(e & -> & -> & -> & ->)|(-> & d & _ & Hsem & ->)].
  - split; [auto|discriminate].
  - split; [intros Hne; now destruct Hne|]. intros _.
    destruct (frameSem_delivery _ _ _ _ _ _ Hsem)
      as (_ & _ & _ & _ & Hmin & _).
    unfold ipv4MinimumSize in Hmin.
    eexists _, _. split; [reflexivity|]. split.
    + now rewrite length_bytesAt by lia.
    + apply be16_range.
Qed.

Lemma ReadFrom_error_or_sender_witness :
  (Some (ErrExternal "network is down") <> None ->
   0 = 0 /\ @None UDPAddr = None /\ buf16 = buf16)
  /\ (Some (ErrExternal "network is down") = None ->
      exists ip port,
        None = Some (mkUDPAddr (Some ip) port)
        /\ length ip = 4%nat /\ 0 <= port < 65536).
Proof.
  exact (ReadFrom_error_or_sender
           (mkBroadcastRawUDPConn
              [Frame icmpFrame; ReadErr (ErrExternal "network is down");
               Frame ackFrame] bound68)
           buf16 0 buf16 None (Some (ErrExternal "network is down"))
           (mkBroadcastRawUDPConn [Frame ackFrame] bound68) eq_refl).
Defined.

(** X3. [ReadFrom] only returns packets destined to the bound address:
    when it returns without error, one of the frames the socket delivered
    has a destination (IP destination, UDP destination port) that
    [udpMatch] accepts for the connection's bound address, the sender
    returned is that frame's (IP source, UDP source port), and the bytes
    placed in the caller's buffer are that frame's first bytes after its
    headers. *)
Theorem ReadFrom_only_bound_destination :
  forall upc b n b' addr upc',
    ReadFrom upc b = (Returned n b' addr None, upc') ->
    exists d,
      In (Frame d) (PacketConn upc)
      /\ udpMatch (frameDst (received b d)) (boundAddr upc) = true
      /\ addr = Some (frameSrc (received b d))
      /\ b' = firstn (Z.to_nat n) (frameBody (received b d))
              ++ skipn (Z.to_nat n) b.
Proof.
  intros upc b n b' addr upc' H.
  apply ReadFrom_returned in H.
  destruct (ReadFrom_loop_returned _ _ _ _ _ _ _ _ H)
    as [(e & He & _)|(_ & d & Hin & Hsem & ->)]; [discriminate|].
  destruct (frameSem_delivery _ _ _ _ _ _ Hsem)
    as (_ & _ & -> & _ & _ & Hmatch).
  exists d. auto.
Qed.

Lemma ReadFrom_only_bound_destination_witness :
  exists d,
    In (Frame d) [Frame otherPortFrame; Frame ackFrame]
    /\ udpMatch (frameDst (received buf16 d)) bound68 = true
    /\ Some (mkUDPAddr (Some [xc0; xa8; x01; x01]) 67)
       = Some (frameSrc (received buf16 d))
    /\ [x44; x48; x43; x50; x41; x43; x4b; x21] ++ repeat x00 8
       = firstn (Z.to_nat 8) (frameBody (received buf16 d))
         ++ skipn (Z.to_nat 8) buf16.
Proof.
  exact (ReadFrom_only_bound_destination
           (mkBroadcastRawUDPConn [Frame otherPortFrame; Frame ackFrame]
              bound68)
           buf16 8 ([x44; x48; x43; x50; x41; x43; x4b; x21] ++ repeat x00 8)
           (Some (mkUDPAddr (Some [xc0; xa8; x01; x01]) 67))
           (mkBroadcastRawUDPConn [] bound68) eq_refl).
Defined.

(** X4. A frame that passes the four header checks but whose destination
    the bound address does not match is discarded: [ReadFrom] goes on to
    the next read as if the frame had not arrived. *)
Theorem ReadFrom_skips_other_destinations :
  forall bound b d pending,
    let f := received b d in
    ipv4MinimumSize <= zlen f ->
    10 <= frameHeaderLength f ->
    frameProtocol f = udpProtocolNumber ->
    frameHeaderLength f + udpMinimumSize <= zlen f ->
    udpMatch (frameDst f) bound = false ->
    ReadFrom (mkBroadcastRawUDPConn (Frame d :: pending) bound) b
    = ReadFrom (mkBroadcastRawUDPConn pending bound) b.
Proof.
  intros bound b d pending f Hmin Hhl Hproto Hudp Hmatch.
  rewrite !ReadFrom_unfold. cbn [boundAddr PacketConn].
  rewrite ReadFrom_loop_frame. fold f.
  unfold frameSem, ipv4MinimumSize, udpMinimumSize in *.
  replace (zlen f =? 0) with false by (symmetry; apply Z.eqb_neq; lia).
  replace (zlen f <? 20) with false by (symmetry; apply Z.ltb_ge; lia).
  replace (zlen f <? frameHeaderLength f) with false
    by (symmetry; apply Z.ltb_ge; lia).
  replace (frameHeaderLength f <? 10) with false
    by (symmetry; apply Z.ltb_ge; lia).
  rewrite Hproto, Z.eqb_refl. cbn [negb].
  replace (zlen f - frameHeaderLength f <? 8) with false
    by (symmetry; apply Z.ltb_ge; lia).
  rewrite Hmatch. reflexivity.
Qed.

Lemma ReadFrom_skips_other_destinations_witness :
  ReadFrom (mkBroadcastRawUDPConn [Frame otherPortFrame; Frame ackFrame]
              bound68) buf16
  = ReadFrom (mkBroadcastRawUDPConn [Frame ackFrame] bound68) buf16.
Proof.
  refine (ReadFrom_skips_other_destinations bound68 buf16 otherPortFrame
            [Frame ackFrame] _ _ _ _ _); by_eval.
Defined.

(** One turn of the loop in terms of the loop on that read alone. *)
Lemma ReadFrom_loop_cons bound b r pending :
  ReadFrom_loop bound b (r :: pending) =
  match fst (ReadFrom_loop bound b [r]) with
  | Blocked => ReadFrom_loop bound b pending
  | out => (out, pending)
  end.
Proof.
  destruct r as [d|e]; [|reflexivity].
  rewrite !ReadFrom_loop_frame.
  destruct (zlen (received b d) =? 0); [reflexivity|].
  destruct (frameSem bound b (received b d)) as [[[[n b'] src]|]|];
    reflexivity.
Qed.

Lemma ReadFrom_loop_single_rest bound b r :
  snd (ReadFrom_loop bound b [r]) = [].
Proof.
  destruct r as [d|e]; [|reflexivity].
  rewrite ReadFrom_loop_frame.
  destruct (zlen (received b d) =? 0); [reflexivity|].
  destruct (frameSem bound b (received b d)) as [[[[n b'] src]|]|];
    reflexivity.
Qed.

Lemma ReadFrom_loop_first_undiscarded bound b pending out rest :
  ReadFrom_loop bound b pending = (out, rest) ->
  exists skipped,
    Forall (fun r => ReadFrom_loop bound b [r] = (Blocked, [])) skipped
    /\ ((out = Blocked /\ pending = skipped /\ rest = [])
        \/ (out <> Blocked
            /\ exists r,
                pending = skipped ++ r :: rest
                /\ ReadFrom_loop bound b [r] = (out, []))).
Proof.
  revert out rest. induction pending as [|r pending IH]; intros out rest.
  - intros [= <- <-]. exists []. split; [constructor|]. left. auto.
  - rewrite ReadFrom_loop_cons.
    pose proof (ReadFrom_loop_single_rest bound b r) as Hrest.
    destruct (ReadFrom_loop bound b [r]) as [out1 rest1] eqn:Hone.
    cbn [fst snd] in *. subst rest1.
    destruct out1 as [n b' addr err| |].
    + intros [= <- <-]. exists []. split; [constructor|]. right.
      split; [discriminate|]. exists r. auto.
    + intros [= <- <-]. exists []. split; [constructor|]. right.
      split; [discriminate|]. exists r. auto.
    + intros H. destruct (IH _ _ H) as (skipped & Hsk & Hcase).
      exists (r :: skipped). split; [constructor; assumption|].
      destruct Hcase as [(-> & -> & ->)|(Hne & r' & -> & Hr')].
      * left. auto.
      * right. split; [exact Hne|]. exists r'. auto.
Qed.

(** X5. What [ReadFrom] returns is decided by the first read that is not
    discarded: the reads before it are frames the loop discards one by
    one, the outcome is the loop's outcome on that read alone, and the
    reads after it stay with the socket.  [ReadFrom] blocks only when
    every frame there is has been discarded.  The bound address is
    unchanged. *)
Theorem ReadFrom_first_undiscarded :
  forall upc b out upc',
    ReadFrom upc b = (out, upc') ->
    boundAddr upc' = boundAddr upc
    /\ exists skipped,
        Forall (fun r =>
                  ReadFrom_loop (boundAddr upc) b [r] = (Blocked, []))
          skipped
        /\ ((out = Blocked
             /\ PacketConn upc = skipped /\ PacketConn upc' = [])
            \/ (out <> Blocked
                /\ exists r,
                    PacketConn upc = skipped ++ r :: PacketConn upc'
                    /\ ReadFrom_loop (boundAddr upc) b [r] = (out, []))).
Proof.
  intros upc b out upc'. rewrite ReadFrom_unfold.
  destruct (ReadFrom_loop (boundAddr upc) b (PacketConn upc))
    as [out1 rest] eqn:Hloop.
  cbn [fst snd]. intros [= -> <-]. cbn [boundAddr PacketConn].
  split; [reflexivity|].
  exact (ReadFrom_loop_first_undiscarded _ _ _ _ _ Hloop).
Qed.

Lemma ReadFrom_first_undiscarded_witness :
  boundAddr (mkBroadcastRawUDPConn [Frame icmpFrame] bound68) = bound68
  /\ exists skipped,
      Forall (fun r => ReadFrom_loop bound68 buf16 [r] = (Blocked, []))
        skipped
      /\ ((Returned 8
             ([x44; x48; x43; x50; x41; x43; x4b; x21] ++ repeat x00 8)
             (Some (mkUDPAddr (Some [xc0; xa8; x01; x01]) 67)) None
           = Blocked
           /\ [Frame icmpFrame; Frame otherPortFrame; Frame ackFrame;
               Frame icmpFrame] = skipped
           /\ [Frame icmpFrame] = [])
          \/ (Returned 8
                ([x44; x48; x43; x50; x41; x43; x4b; x21] ++ repeat x00 8)
                (Some (mkUDPAddr (Some [xc0; xa8; x01; x01]) 67)) None
              <> Blocked
              /\ exists r,
                  [Frame icmpFrame; Frame otherPortFrame; Frame ackFrame;
                   Frame icmpFrame] = skipped ++ r :: [Frame icmpFrame]
                  /\ ReadFrom_loop bound68 buf16 [r]
                     = (Returned 8
                          ([x44; x48; x43; x50; x41; x43; x4b; x21]
                           ++ repeat x00 8)
                          (Some (mkUDPAddr (Some [xc0; xa8; x01; x01]) 67))
                          None, []))).
Proof.
  exact (ReadFrom_first_undiscarded
           (mkBroadcastRawUDPConn
              [Frame icmpFrame; Frame otherPortFrame; Frame ackFrame;
               Frame icmpFrame] bound68)
           buf16 _ _ eq_refl).
Defined.

Lemma ReadFrom_loop_app bound b pre post :
  ReadFrom_loop bound b (pre ++ post) =
  match fst (ReadFrom_loop bound b pre) with
  | Blocked => ReadFrom_loop bound b post
  | out => (out, snd (ReadFrom_loop bound b pre) ++ post)
  end.
Proof.
  induction pre as [|r pre IH]; [reflexivity|].
  cbn [app].
  rewrite (ReadFrom_loop_cons bound b r (pre ++ post)),
    (ReadFrom_loop_cons bound b r pre).
  destruct (fst (ReadFrom_loop bound b [r])); try reflexivity.
  exact IH.
Qed.

(** X6. Frames that arrive after the one [ReadFrom] returns on do not
    change what it returns and are left for the next call; and frames that
    are all discarded are as good as absent: the call continues with what
    comes after them. *)
Theorem ReadFrom_ignores_later_frames :
  forall bound b pre post,
    (ReadFrom (mkBroadcastRawUDPConn pre bound) b
     = (Blocked, mkBroadcastRawUDPConn [] bound) ->
     ReadFrom (mkBroadcastRawUDPConn (pre ++ post) bound) b
     = ReadFrom (mkBroadcastRawUDPConn post bound) b)
    /\ (forall out rest,
           out <> Blocked ->
           ReadFrom (mkBroadcastRawUDPConn pre bound) b
           = (out, mkBroadcastRawUDPConn rest bound) ->
           ReadFrom (mkBroadcastRawUDPConn (pre ++ post) bound) b
           = (out, mkBroadcastRawUDPConn (rest ++ post) bound)).
Proof.
  intros bound b pre post. rewrite !ReadFrom_unfold.
  cbn [boundAddr PacketConn]. rewrite ReadFrom_loop_app.
  destruct (ReadFrom_loop bound b pre) as [out1 rest1]. cbn [fst snd].
  split.
  - intros [= -> ->]. reflexivity.
  - intros out rest Hne [= -> ->]. destruct out; try reflexivity.
    now destruct Hne.
Qed.

Lemma ReadFrom_ignores_later_frames_witness :
  ReadFrom (mkBroadcastRawUDPConn
              ([Frame icmpFrame; Frame otherPortFrame] ++ [Frame ackFrame])
              bound68) buf16
  = ReadFrom (mkBroadcastRawUDPConn [Frame ackFrame] bound68) buf16
  /\ ReadFrom (mkBroadcastRawUDPConn
                 ([Frame icmpFrame; Frame ackFrame] ++ [Frame headerOnlyFrame])
                 bound68) buf16
     = (Returned 8
          ([x44; x48; x43; x50; x41; x43; x4b; x21] ++ repeat x00 8)
          (Some (mkUDPAddr (Some [xc0; xa8; x01; x01]) 67)) None,
        mkBroadcastRawUDPConn ([] ++ [Frame headerOnlyFrame]) bound68).
Proof.
  split.
  - exact (proj1 (ReadFrom_ignores_later_frames bound68 buf16
                    [Frame icmpFrame; Frame otherPortFrame]
                    [Frame ackFrame]) eq_refl).
  - refine (proj2 (ReadFrom_ignores_later_frames bound68 buf16
                     [Frame icmpFrame; Frame ackFrame]
                     [Frame headerOnlyFrame]) _ [] _ eq_refl).
    discriminate.
Defined.

Lemma frameBody_app_l f t :
  1 <= zlen f -> frameHeaderLength f + udpMinimumSize <= zlen f ->
  frameBody (f ++ t) = frameBody f ++ t.
Proof.
  intros H1 H. unfold frameBody. rewrite frameHeaderLength_app_l by lia.
  pose proof (frameHeaderLength_range f).
  rewrite skipn_app. f_equal.
  replace (Z.to_nat (frameHeaderLength f + udpMinimumSize) - length f)%nat
    with 0%nat by (unfold zlen, udpMinimumSize in *; lia).
  reflexivity.
Qed.

Lemma frameSem_padding bound b d pad :
  ipv4MinimumSize <= zlen d ->
  frameHeaderLength d + udpMinimumSize <= frameTotalLength d <= zlen d ->
  frameSem bound b (d ++ pad) = frameSem bound b d.
Proof.
  intros Hmin Htotal.
  pose proof (frameHeaderLength_range d) as Hr.
  pose proof (zlen_nonneg pad) as Hp.
  assert (Hdl : frameDhcpLen d
                = frameTotalLength d - frameHeaderLength d - udpMinimumSize)
    by (apply frameDhcpLen_declared; unfold udpMinimumSize in *; lia).
  assert (Hbody : zlen (frameBody d)
                  = zlen d - frameHeaderLength d - udpMinimumSize)
    by (apply length_frameBody; lia).
  unfold ipv4MinimumSize, udpMinimumSize in *.
  unfold frameSem.
  rewrite frameHeaderLength_app_l, frameDhcpLen_app_l, frameProtocol_app_l,
    frameDst_app_l, frameSrc_app_l, frameBody_app_l, !zlen_app
    by (unfold udpMinimumSize; lia).
  unfold ipv4MinimumSize, udpMinimumSize.
  replace (zlen d + zlen pad <? 20) with false
    by (symmetry; apply Z.ltb_ge; lia).
  replace (zlen d <? 20) with false by (symmetry; apply Z.ltb_ge; lia).
  replace (zlen d + zlen pad <? frameHeaderLength d) with false
    by (symmetry; apply Z.ltb_ge; lia).
  replace (zlen d <? frameHeaderLength d) with false
    by (symmetry; apply Z.ltb_ge; lia).
  replace (zlen d + zlen pad - frameHeaderLength d <? 8) with false
    by (symmetry; apply Z.ltb_ge; lia).
  replace (zlen d - frameHeaderLength d <? 8) with false
    by (symmetry; apply Z.ltb_ge; lia).
  replace (frameDhcpLen d <=? zlen (frameBody d) + zlen pad) with true
    by (symmetry; apply Z.leb_le; lia).
  replace (frameDhcpLen d <=? zlen (frameBody d)) with true
    by (symmetry; apply Z.leb_le; lia).
  rewrite firstn_app.
  replace (Z.to_nat (frameDhcpLen d) - length (frameBody d))%nat
    with 0%nat by (unfold zlen in *; lia).
  rewrite firstn_O, app_nil_r. reflexivity.
Qed.

(** X7. Extra bytes after the end of the IP packet are ignored: for a
    frame of at least 20 bytes whose IP total length covers its headers
    and does not exceed the frame, [ReadFrom] returns the same with and
    without bytes appended to the frame, as long as the longer frame fits
    the packet buffer of [60 + 8 + len(b)] bytes. *)
Theorem ReadFrom_ignores_trailing_padding :
  forall bound b d pad pending,
    ipv4MinimumSize <= zlen d ->
    frameHeaderLength d + udpMinimumSize <= frameTotalLength d <= zlen d ->
    zlen d + zlen pad <= ipv4MaximumHeaderSize + udpMinimumSize + zlen b ->
    ReadFrom (mkBroadcastRawUDPConn (Frame (d ++ pad) :: pending) bound) b
    = ReadFrom (mkBroadcastRawUDPConn (Frame d :: pending) bound) b.
Proof.
  intros bound b d pad pending Hmin Htotal Hfit.
  pose proof (zlen_nonneg pad).
  rewrite !ReadFrom_unfold. cbn [boundAddr PacketConn].
  rewrite !ReadFrom_loop_frame.
  rewrite (received_whole b (d ++ pad)) by (rewrite zlen_app; lia).
  rewrite (received_whole b d) by lia.
  rewrite frameSem_padding by assumption.
  rewrite zlen_app. unfold ipv4MinimumSize in *.
  replace (zlen d + zlen pad =? 0) with false
    by (symmetry; apply Z.eqb_neq; lia).
  replace (zlen d =? 0) with false by (symmetry; apply Z.eqb_neq; lia).
  reflexivity.
Qed.

Lemma ReadFrom_ignores_trailing_padding_witness :
  ReadFrom (mkBroadcastRawUDPConn
              [Frame (otherPortFrame ++ [x00; x00; xde; xad; xbe; xef])]
              (Some (mkUDPAddr None 69))) buf16
  = ReadFrom (mkBroadcastRawUDPConn [Frame otherPortFrame]
                (Some (mkUDPAddr None 69))) buf16.
Proof.
  refine (ReadFrom_ignores_trailing_padding (Some (mkUDPAddr None 69)) buf16
            otherPortFrame [x00; x00; xde; xad; xbe; xef] [] _ _ _);
    by_eval.
Defined.

(** X8. A datagram longer than the packet buffer is not delivered in
    part: when a frame that is exactly its IP packet (total length equal
    to the frame's length) is longer than [60 + 8 + len(b)] bytes, passes
    the header checks and matches the bound address, [ReadFrom] returns
    count 0 with the sender and a nil error, and the caller's buffer is
    untouched. *)
Theorem ReadFrom_oversized_datagram_returns_zero :
  forall bound b d pending,
    ipv4MaximumHeaderSize + udpMinimumSize + zlen b < zlen d ->
    frameTotalLength d = zlen d ->
    10 <= frameHeaderLength d ->
    frameProtocol d = udpProtocolNumber ->
    udpMatch (frameDst d) bound = true ->
    ReadFrom (mkBroadcastRawUDPConn (Frame d :: pending) bound) b =
    (Returned 0 b (Some (frameSrc d)) None,
     mkBroadcastRawUDPConn pending bound).
Proof.
  intros bound b d pending Hlong Htotal Hhl Hproto Hmatch.
  pose proof (zlen_nonneg b) as Hb.
  set (f := received b d).
  assert (Hzf : zlen f = ipv4MaximumHeaderSize + udpMinimumSize + zlen b).
  { unfold f, zlen. rewrite received_length.
    unfold ipv4MaximumHeaderSize, udpMinimumSize, zlen in *. lia. }
  assert (Hd : d = f ++ skipn (Z.to_nat (ipv4MaximumHeaderSize
                                          + udpMinimumSize + zlen b)) d).
  { unfold f, received. now rewrite firstn_skipn. }
  set (rest := skipn _ d) in Hd.
  unfold ipv4MaximumHeaderSize, udpMinimumSize in *.
  assert (Hhlf : frameHeaderLength d = frameHeaderLength f)
    by (rewrite Hd; apply frameHeaderLength_app_l; lia).
  pose proof (frameHeaderLength_range f) as Hr.
  assert (Htf : frameTotalLength d = frameTotalLength f)
    by (rewrite Hd; apply frameTotalLength_app_l; lia).
  assert (Hpf : frameProtocol d = frameProtocol f)
    by (rewrite Hd; apply frameProtocol_app_l; lia).
  assert (Hdf : frameDst d = frameDst f)
    by (rewrite Hd; apply frameDst_app_l; lia).
  assert (Hsf : frameSrc d = frameSrc f)
    by (rewrite Hd; apply frameSrc_app_l; lia).
  rewrite ReadFrom_unfold. cbn [boundAddr PacketConn].
  rewrite ReadFrom_loop_matching; fold f;
    unfold ipv4MinimumSize, udpMinimumSize; try lia; try congruence.
  assert (Hbody : zlen (frameBody f) = zlen f - frameHeaderLength f - 8).
  { apply length_frameBody. unfold udpMinimumSize. lia. }
  rewrite frameDhcpLen_declared by lia. unfold udpMinimumSize.
  replace (frameTotalLength f - frameHeaderLength f - 8 <? 0) with false
    by (symmetry; apply Z.ltb_ge; lia).
  replace (frameTotalLength f - frameHeaderLength f - 8
           <=? zlen (frameBody f)) with false
    by (symmetry; apply Z.leb_gt; lia).
  cbn zeta. cbn [fst snd length]. rewrite Nat.min_0_r, Hsf. reflexivity.
Qed.

Lemma ReadFrom_oversized_datagram_returns_zero_witness :
  ReadFrom (mkBroadcastRawUDPConn [Frame bigFrame] bound68) buf2 =
  (Returned 0 buf2 (Some (mkUDPAddr (Some [xc0; xa8; x01; x01]) 67)) None,
   mkBroadcastRawUDPConn [] bound68).
Proof.
  refine (ReadFrom_oversized_datagram_returns_zero bound68 buf2 bigFrame []
            _ _ _ _ _); by_eval.
Defined.

Lemma frameSem_udp_length_and_checksum bound b hdr x y rest :
  ipv4MinimumSize <= frameHeaderLength hdr ->
  zlen hdr = frameHeaderLength hdr + 4 ->
  zlen x = 4 -> zlen y = 4 ->
  frameSem bound b (hdr ++ x ++ rest) = frameSem bound b (hdr ++ y ++ rest).
Proof.
  intros Hhl Hhdr Hx Hy. unfold ipv4MinimumSize in *.
  assert (Hbody : forall z, zlen z = 4 -> frameBody (hdr ++ z ++ rest) = rest).
  { intros z Hz. unfold frameBody.
    rewrite frameHeaderLength_app_l by lia.
    rewrite app_assoc, skipn_app.
    rewrite skipn_all2
      by (rewrite length_app; unfold zlen, udpMinimumSize in *; lia).
    rewrite length_app.
    replace (Z.to_nat (frameHeaderLength hdr + udpMinimumSize)
             - (length hdr + length z))%nat with 0%nat
      by (unfold zlen, udpMinimumSize in *; lia).
    reflexivity. }
  unfold frameSem.
  rewrite !frameHeaderLength_app_l, !frameDhcpLen_app_l,
    !frameProtocol_app_l, !frameDst_app_l, !frameSrc_app_l by lia.
  rewrite (Hbody x Hx), (Hbody y Hy), !zlen_app, Hx, Hy. reflexivity.
Qed.

(** X9. The UDP length and checksum fields are not read: with an IP header
    of at least 20 bytes, two frames that differ only in the four bytes
    after the UDP ports make [ReadFrom] return the same. *)
Theorem ReadFrom_ignores_udp_length_and_checksum :
  forall bound b hdr x y rest pending,
    ipv4MinimumSize <= frameHeaderLength hdr ->
    zlen hdr = frameHeaderLength hdr + 4 ->
    zlen x = 4 -> zlen y = 4 ->
    ReadFrom (mkBroadcastRawUDPConn (Frame (hdr ++ x ++ rest) :: pending)
                bound) b
    = ReadFrom (mkBroadcastRawUDPConn (Frame (hdr ++ y ++ rest) :: pending)
                  bound) b.
Proof.
  intros bound b hdr x y rest pending Hhl Hhdr Hx Hy.
  pose proof (frameHeaderLength_range hdr) as Hr.
  pose proof (zlen_nonneg b) as Hb.
  assert (Hrecv : forall z, zlen z = 4 ->
            received b (hdr ++ z ++ rest) =
            hdr ++ z ++
            firstn (Z.to_nat (ipv4MaximumHeaderSize + udpMinimumSize + zlen b)
                    - length hdr - 4) rest).
  { intros z Hz. unfold received.
    unfold ipv4MaximumHeaderSize, udpMinimumSize, zlen in *.
    rewrite firstn_app, firstn_all2 by lia. f_equal.
    rewrite firstn_app, firstn_all2 by lia. f_equal.
    f_equal. lia. }
  rewrite !ReadFrom_unfold. cbn [boundAddr PacketConn].
  rewrite !ReadFrom_loop_frame.
  rewrite (Hrecv x Hx), (Hrecv y Hy).
  rewrite (frameSem_udp_length_and_checksum bound b hdr x y) by assumption.
  rewrite !zlen_app, Hx, Hy. reflexivity.
Qed.

Lemma ReadFrom_ignores_udp_length_and_checksum_witness :
  ReadFrom (mkBroadcastRawUDPConn
              [Frame (firstn 24 ackFrame ++ [x00; x10; x00; x00]
                      ++ skipn 28 ackFrame)] bound68) buf16
  = ReadFrom (mkBroadcastRawUDPConn
                [Frame (firstn 24 ackFrame ++ [xff; xff; x12; x34]
                        ++ skipn 28 ackFrame)] bound68) buf16.
Proof.
  refine (ReadFrom_ignores_udp_length_and_checksum bound68 buf16
            (firstn 24 ackFrame) [x00; x10; x00; x00] [xff; xff; x12; x34]
            (skipn 28 ackFrame) [] _ _ _ _); by_eval.
Defined.

(** ** Further properties of address resolution *)

(** The calls of resolution and its answer, case by case. *)
Lemma getHwAddr_run env ip :
  run (getHwAddr env ip) =
  match env_NeighListExecute env reachableV4 with
  | Err e => (Err e, [EvNeighListExecute reachableV4])
  | Ok neighList =>
      match neighLookup ip neighList with
      | Some hw => (Ok hw, [EvNeighListExecute reachableV4])
      | None =>
          match env_RouteGet env ip with
          | Err e => (Err e, [EvNeighListExecute reachableV4; EvRouteGet ip])
          | Ok [] =>
              (Err (ErrNoRoute ip),
               [EvNeighListExecute reachableV4; EvRouteGet ip])
          | Ok (r0 :: _) =>
              let index := netlink.LinkIndex r0 in
              match env_InterfaceByIndex env index with
              | Err e =>
                  (Err e, [EvNeighListExecute reachableV4; EvRouteGet ip;
                           EvInterfaceByIndex index])
              | Ok ifc =>
                  match env_Dial env ifc with
                  | Err e =>
                      (Err e, [EvNeighListExecute reachableV4; EvRouteGet ip;
                               EvInterfaceByIndex index; EvDial ifc])
                  | Ok c =>
                      (env_Resolve env c ip,
                       [EvNeighListExecute reachableV4; EvRouteGet ip;
                        EvInterfaceByIndex index; EvDial ifc;
                        EvResolve c ip])
                  end
              end
          end
      end
  end.
Proof.
  unfold run, getHwAddr, arpResolve, io_bind, call, io_ret.
  destruct (env_NeighListExecute env reachableV4) as [neighList|e];
    [|reflexivity].
  destruct (neighLookup ip neighList); [reflexivity|]. cbn [app].
  destruct (env_RouteGet env ip) as [[|r0 routes]|e]; try reflexivity.
  destruct (env_InterfaceByIndex env (netlink.LinkIndex r0)) as [ifc|e];
    [|reflexivity].
  destruct (env_Dial env ifc) as [c|e]; reflexivity.
Qed.

(** X10. When the kernel's neighbour listing fails, [getHwAddr] returns
    the listing's error without looking up a route or trying ARP, and a
    unicast [WriteTo] whose framing succeeded then returns
    [(0, ErrHWAddrNotFound)] having made no other call: nothing is sent. *)
Theorem getHwAddr_listing_failure_is_final :
  forall env ip e,
    env_NeighListExecute env reachableV4 = Err e ->
    run (getHwAddr env ip) = (Err e, [EvNeighListExecute reachableV4])
    /\ forall (framer : Framer) upc b udpAddr packet,
        IP udpAddr = ip ->
        framer b udpAddr (boundAddr (embedded upc)) = Val packet ->
        run (UnicastRawUDPConn_WriteTo framer env upc b
               (Some (AddrUDP udpAddr)))
        = (Val (0, Some ErrHWAddrNotFound),
           [EvNeighListExecute reachableV4]).
Proof.
  intros env ip e He.
  assert (Hrun : run (getHwAddr env ip)
                 = (Err e, [EvNeighListExecute reachableV4]))
    by (rewrite getHwAddr_run, He; reflexivity).
  split; [exact Hrun|].
  intros framer upc b udpAddr packet Hip Hpkt.
  rewrite (Unicast_WriteTo_run framer env upc b udpAddr packet Hpkt).
  rewrite Hip, Hrun. reflexivity.
Qed.

Lemma getHwAddr_listing_failure_is_final_witness :
  run (getHwAddr envNoNetlink ip_10_0_0_5)
  = (Err (ErrExternal "operation not permitted"),
     [EvNeighListExecute reachableV4])
  /\ run (UnicastRawUDPConn_WriteTo udp4pkt envNoNetlink
            (mkUnicastRawUDPConn conn68) payload4
            (Some (AddrUDP (mkUDPAddr ip_10_0_0_5 67))))
     = (Val (0, Some ErrHWAddrNotFound), [EvNeighListExecute reachableV4]).
Proof.
  destruct (getHwAddr_listing_failure_is_final envNoNetlink ip_10_0_0_5
              (ErrExternal "operation not permitted") eq_refl)
    as [Hrun Hsend].
  split; [exact Hrun|].
  exact (Hsend udp4pkt (mkUnicastRawUDPConn conn68) payload4
           (mkUDPAddr ip_10_0_0_5 67) _ eq_refl eq_refl).
Defined.

(** X11. An ARP exchange is made only for the target IP, only on a client
    dialled on the interface of the first route's link index, and only
    after the neighbour listing succeeded without a usable entry and the
    route lookup, the interface lookup and the dial all succeeded; its
    answer is then what [getHwAddr] returns. *)
Theorem getHwAddr_arp_only_after_miss :
  forall env ip c dest,
    In (EvResolve c dest) (snd (run (getHwAddr env ip))) ->
    dest = ip
    /\ exists neighList r0 routes ifc,
        env_NeighListExecute env reachableV4 = Ok neighList
        /\ neighLookup ip neighList = None
        /\ env_RouteGet env ip = Ok (r0 :: routes)
        /\ env_InterfaceByIndex env (netlink.LinkIndex r0) = Ok ifc
        /\ env_Dial env ifc = Ok c
        /\ fst (run (getHwAddr env ip)) = env_Resolve env c ip.
Proof.
  intros env ip c dest. rewrite getHwAddr_run.
  destruct (env_NeighListExecute env reachableV4) as [neighList|e] eqn:Hn.
  2:{ cbn [snd In]. intros [H|[]]; discriminate H. }
  destruct (neighLookup ip neighList) as [hw|] eqn:Hl.
  { cbn [snd In]. intros [H|[]]; discriminate H. }
  destruct (env_RouteGet env ip) as [[|r0 routes]|e] eqn:Hr.
  1,3: cbn [snd In]; intros [H|[H|[]]]; discriminate H.
  cbn zeta.
  destruct (env_InterfaceByIndex env (netlink.LinkIndex r0)) as [ifc|e]
    eqn:Hi.
  2:{ cbn [snd In]. intros [H|[H|[H|[]]]]; discriminate H. }
  destruct (env_Dial env ifc) as [c0|e] eqn:Hdial.
  2:{ cbn [snd In]. intros [H|[H|[H|[H|[]]]]]; discriminate H. }
  cbn [snd fst In].
  intros [H|[H|[H|[H|[H|[]]]]]]; try discriminate H.
  injection H as Hc Hd. subst c0 dest. split; [reflexivity|].
  exists neighList, r0, routes, ifc. repeat split; auto.
Qed.

Lemma getHwAddr_arp_only_after_miss_witness :
  ip_10_0_0_5 = ip_10_0_0_5
  /\ exists neighList r0 routes ifc,
      env_NeighListExecute envArp reachableV4 = Ok neighList
      /\ neighLookup ip_10_0_0_5 neighList = None
      /\ env_RouteGet envArp ip_10_0_0_5 = Ok (r0 :: routes)
      /\ env_InterfaceByIndex envArp (netlink.LinkIndex r0) = Ok ifc
      /\ env_Dial envArp ifc = Ok (mkArpClient (mkInterface 2))
      /\ fst (run (getHwAddr envArp ip_10_0_0_5))
         = env_Resolve envArp (mkArpClient (mkInterface 2)) ip_10_0_0_5.
Proof.
  apply (getHwAddr_arp_only_after_miss envArp ip_10_0_0_5
           (mkArpClient (mkInterface 2)) ip_10_0_0_5).
  vm_compute. do 4 right. left. reflexivity.
Defined.

Lemma neighLookup_nonnil ip neighList hw :
  neighLookup ip neighList = Some hw ->
  hw <> None
  /\ exists neigh,
      In neigh neighList
      /\ IP_Equal ip (netlink.IP neigh) = true
      /\ netlink.HardwareAddr neigh = hw.
Proof.
  intros H.
  destruct (neighLookup_first ip neighList hw H)
    as (pre & hit & post & -> & _ & Hhit & ->).
  unfold neighMatches in Hhit. apply andb_true_iff in Hhit.
  destruct Hhit as [Hip Hnil]. split.
  - destruct (netlink.HardwareAddr hit); [discriminate|discriminate Hnil].
  - exists hit. split; [apply in_or_app; right; now left|auto].
Qed.

(** X12. An address that [getHwAddr] returns without looking up a route
    is never nil: it is the hardware address of a listed neighbour whose
    IP equals the target. *)
Theorem getHwAddr_cached_address_not_nil :
  forall env ip hw,
    run (getHwAddr env ip) = (Ok hw, [EvNeighListExecute reachableV4]) ->
    hw <> None
    /\ exists neighList neigh,
        env_NeighListExecute env reachableV4 = Ok neighList
        /\ In neigh neighList
        /\ IP_Equal ip (netlink.IP neigh) = true
        /\ netlink.HardwareAddr neigh = hw.
Proof.
  intros env ip hw. rewrite getHwAddr_run.
  destruct (env_NeighListExecute env reachableV4) as [neighList|e];
    [|discriminate].
  destruct (neighLookup ip neighList) as [hw0|] eqn:Hl.
  - intros [= ->].
    destruct (neighLookup_nonnil ip neighList hw Hl) as (Hnn & neigh & Hn).
    split; [exact Hnn|]. exists neighList, neigh. tauto.
  - destruct (env_RouteGet env ip) as [[|r0 routes]|e]; try discriminate.
    cbn zeta.
    destruct (env_InterfaceByIndex env (netlink.LinkIndex r0)) as [ifc|e];
      [|discriminate].
    destruct (env_Dial env ifc); discriminate.
Qed.

Lemma getHwAddr_cached_address_not_nil_witness :
  sampleMac <> None
  /\ exists neighList neigh,
      env_NeighListExecute envNeighbour reachableV4 = Ok neighList
      /\ In neigh neighList
      /\ IP_Equal ip_10_0_0_5 (netlink.IP neigh) = true
      /\ netlink.HardwareAddr neigh = sampleMac.
Proof.
  exact (getHwAddr_cached_address_not_nil envNeighbour ip_10_0_0_5 sampleMac
           eq_refl).
Defined.

(** ** Further properties of WriteTo *)

Lemma socketWrites_In tr packet hw :
  In (EvWriteTo packet hw) tr -> socketWrites tr <> [].
Proof.
  intros Hin Hnil.
  assert (H : In (EvWriteTo packet hw) (socketWrites tr))
    by (apply filter_In; split; [exact Hin|reflexivity]).
  rewrite Hnil in H. exact H.
Qed.

(** The calls of broadcast [WriteTo]: none, or the one write. *)
Lemma Broadcast_WriteTo_run (framer : Framer) env upc b addr :
  run (BroadcastRawUDPConn_WriteTo framer env upc b addr)
  = (Val (0, Some ErrUDPAddrIsRequired), [])
  \/ run (BroadcastRawUDPConn_WriteTo framer env upc b addr) = (Panic, [])
  \/ exists udpAddr packet,
      addr = Some (AddrUDP udpAddr)
      /\ framer b udpAddr (boundAddr upc) = Val packet
      /\ run (BroadcastRawUDPConn_WriteTo framer env upc b addr)
         = (Val (env_WriteTo env packet BroadcastMac),
            [EvWriteTo packet BroadcastMac]).
Proof.
  destruct addr as [[udpAddr|hw|ip|network str]|]; try (left; reflexivity).
  unfold BroadcastRawUDPConn_WriteTo.
  destruct (framer b udpAddr (boundAddr upc)) as [packet|] eqn:Hpkt.
  - right. right. exists udpAddr, packet. auto.
  - right. left. reflexivity.
Qed.

(** The writes of unicast [WriteTo]. *)
Lemma Unicast_WriteTo_write (framer : Framer) env upc b addr packet hw :
  In (EvWriteTo packet hw)
    (snd (run (UnicastRawUDPConn_WriteTo framer env upc b addr))) ->
  exists udpAddr,
    addr = Some (AddrUDP udpAddr)
    /\ framer b udpAddr (boundAddr (embedded upc)) = Val packet
    /\ fst (run (getHwAddr env (IP udpAddr))) = Ok hw.
Proof.
  destruct addr as [[udpAddr|hw0|ip|network str]|]; try (intros []).
  destruct (framer b udpAddr (boundAddr (embedded upc))) as [packet0|]
    eqn:Hpkt.
  - rewrite (Unicast_WriteTo_run framer env upc b udpAddr packet0 Hpkt).
    pose proof (getHwAddr_no_socket_write env (IP udpAddr)) as Hquiet.
    destruct (run (getHwAddr env (IP udpAddr))) as [[dstMac|e] tr] eqn:Hres.
    + cbn [fst snd] in *. intros Hin. apply in_app_or in Hin.
      destruct Hin as [Hin|[Heq|[]]].
      * now destruct (socketWrites_In _ _ _ Hin).
      * injection Heq as -> ->. exists udpAddr. rewrite Hres. auto.
    + cbn [fst snd] in *. intros Hin.
      now destruct (socketWrites_In _ _ _ Hin).
  - unfold UnicastRawUDPConn_WriteTo. rewrite Hpkt. intros [].
Qed.

(** X13. Broadcast [WriteTo] never consults the neighbour table, the
    routes or ARP: it makes no call at all (a destination of the wrong
    type, or a panic in framing), or exactly one, the write of the framed
    packet to ff:ff:ff:ff:ff:ff, whose result it returns. *)
Theorem Broadcast_WriteTo_only_writes_to_broadcast :
  forall (framer : Framer) env upc b addr ev,
    In ev (snd (run (BroadcastRawUDPConn_WriteTo framer env upc b addr))) ->
    exists udpAddr packet,
      addr = Some (AddrUDP udpAddr)
      /\ framer b udpAddr (boundAddr upc) = Val packet
      /\ ev = EvWriteTo packet (Some [xff; xff; xff; xff; xff; xff])
      /\ run (BroadcastRawUDPConn_WriteTo framer env upc b addr)
         = (Val (env_WriteTo env packet BroadcastMac), [ev]).
Proof.
  intros framer env upc b addr ev.
  destruct (Broadcast_WriteTo_run framer env upc b addr)
    as [H|[H|(udpAddr & packet & Ha & Hp & H)]]; rewrite H; cbn [snd].
  - intros [].
  - intros [].
  - intros [<-|[]]. exists udpAddr, packet. auto.
Qed.

Lemma Broadcast_WriteTo_only_writes_to_broadcast_witness :
  exists udpAddr packet,
    Some (AddrUDP (mkUDPAddr ip_10_0_0_5 67)) = Some (AddrUDP udpAddr)
    /\ udp4pkt payload4 udpAddr (boundAddr conn68) = Val packet
    /\ EvWriteTo
         ([x45; x00; x00; x20; x00; x00; x00; x00; x00; x11; x00; x00;
           x00; x00; x00; x00; x0a; x00; x00; x05;
           x00; x44; x00; x43; x00; x0c; x00; x00] ++ payload4)
         BroadcastMac
       = EvWriteTo packet (Some [xff; xff; xff; xff; xff; xff])
    /\ run (BroadcastRawUDPConn_WriteTo udp4pkt envNeighbour conn68 payload4
              (Some (AddrUDP (mkUDPAddr ip_10_0_0_5 67))))
       = (Val (env_WriteTo envNeighbour packet BroadcastMac),
          [EvWriteTo
             ([x45; x00; x00; x20; x00; x00; x00; x00; x00; x11; x00; x00;
               x00; x00; x00; x00; x0a; x00; x00; x05;
               x00; x44; x00; x43; x00; x0c; x00; x00] ++ payload4)
             BroadcastMac]).
Proof.
  apply (Broadcast_WriteTo_only_writes_to_broadcast udp4pkt envNeighbour
           conn68 payload4 (Some (AddrUDP (mkUDPAddr ip_10_0_0_5 67)))).
  vm_compute. left. reflexivity.
Defined.

(** X14. Every write unicast [WriteTo] makes on the raw socket goes to
    the link address that [getHwAddr] returned for the destination IP,
    and carries the packet that broadcast [WriteTo] on the same
    connection, payload and destination sends to the broadcast address:
    the two modes frame alike and differ in the link address only. *)
Theorem Unicast_WriteTo_sends_what_Broadcast_sends :
  forall (framer : Framer) env upc b addr packet hw,
    In (EvWriteTo packet hw)
      (snd (run (UnicastRawUDPConn_WriteTo framer env upc b addr))) ->
    exists udpAddr,
      addr = Some (AddrUDP udpAddr)
      /\ fst (run (getHwAddr env (IP udpAddr))) = Ok hw
      /\ run (BroadcastRawUDPConn_WriteTo framer env (embedded upc) b addr)
         = (Val (env_WriteTo env packet BroadcastMac),
            [EvWriteTo packet BroadcastMac]).
Proof.
  intros framer env upc b addr packet hw Hin.
  destruct (Unicast_WriteTo_write framer env upc b addr packet hw Hin)
    as (udpAddr & -> & Hpkt & Hres).
  exists udpAddr. split; [reflexivity|]. split; [exact Hres|].
  unfold BroadcastRawUDPConn_WriteTo. rewrite Hpkt. reflexivity.
Qed.

Lemma Unicast_WriteTo_sends_what_Broadcast_sends_witness :
  exists udpAddr,
    Some (AddrUDP (mkUDPAddr ip_10_0_0_5 67)) = Some (AddrUDP udpAddr)
    /\ fst (run (getHwAddr envNeighbour (IP udpAddr))) = Ok sampleMac
    /\ run (BroadcastRawUDPConn_WriteTo udp4pkt envNeighbour
              (embedded (mkUnicastRawUDPConn conn68)) payload4
              (Some (AddrUDP (mkUDPAddr ip_10_0_0_5 67))))
       = (Val (env_WriteTo envNeighbour
                 ([x45; x00; x00; x20; x00; x00; x00; x00; x00; x11; x00;
                   x00; x00; x00; x00; x00; x0a; x00; x00; x05;
                   x00; x44; x00; x43; x00; x0c; x00; x00] ++ payload4)
                 BroadcastMac),
          [EvWriteTo
             ([x45; x00; x00; x20; x00; x00; x00; x00; x00; x11; x00; x00;
               x00; x00; x00; x00; x0a; x00; x00; x05;
               x00; x44; x00; x43; x00; x0c; x00; x00] ++ payload4)
             BroadcastMac]).
Proof.
  apply (Unicast_WriteTo_sends_what_Broadcast_sends udp4pkt envNeighbour
           (mkUnicastRawUDPConn conn68) payload4
           (Some (AddrUDP (mkUDPAddr ip_10_0_0_5 67))) _ sampleMac).
  vm_compute. right. left. reflexivity.
Defined.

(** ** Properties of the constructors *)

Lemma NewRawUDPConn_ok oenv iface addr typ c :
  fst (NewRawUDPConn oenv iface addr typ) = Ok c ->
  exists ifc rawConn,
    env_InterfaceByName oenv iface = Ok ifc
    /\ env_ListenPacket oenv ifc EtherTypeIPv4 true = Ok rawConn
    /\ c = (if typ =? UDPUnicast
            then Unicast (mkUnicastRawUDPConn
                            (mkBroadcastRawUDPConn rawConn addr))
            else Broadcast (mkBroadcastRawUDPConn rawConn addr)).
Proof.
  unfold NewRawUDPConn.
  destruct (env_InterfaceByName oenv iface) as [ifc|e]; [|discriminate].
  destruct (env_ListenPacket oenv ifc EtherTypeIPv4 true) as [rawConn|e]
    eqn:Hl; [|discriminate].
  intros H. exists ifc, rawConn. split; [reflexivity|]. split; [exact Hl|].
  destruct (typ =? UDPUnicast); cbn [fst] in H; now injection H as <-.
Qed.

(** X15. Whatever type it is asked for, the connection [NewRawUDPConn]
    returns reads alike: [ReadFrom] on it is the broadcast connection's
    [ReadFrom] over the raw socket just opened (for IPv4 frames, in
    datagram mode, on the named interface), filtered by the given
    address. *)
Theorem NewRawUDPConn_reads_alike :
  forall oenv iface addr typ c,
    fst (NewRawUDPConn oenv iface addr typ) = Ok c ->
    exists ifc rawConn,
      env_InterfaceByName oenv iface = Ok ifc
      /\ env_ListenPacket oenv ifc 2048 true = Ok rawConn
      /\ forall b,
          fst (RawUDPConn_ReadFrom c b)
          = fst (ReadFrom (mkBroadcastRawUDPConn rawConn addr) b).
Proof.
  intros oenv iface addr typ c H.
  destruct (NewRawUDPConn_ok _ _ _ _ _ H) as (ifc & rawConn & Hi & Hl & ->).
  exists ifc, rawConn. split; [exact Hi|]. split; [exact Hl|]. intros b.
  destruct (typ =? UDPUnicast); cbn [RawUDPConn_ReadFrom embedded];
    now destruct (ReadFrom (mkBroadcastRawUDPConn rawConn addr) b).
Qed.

Lemma NewRawUDPConn_reads_alike_witness :
  exists ifc rawConn,
    env_InterfaceByName sampleOpenEnv "eth0" = Ok ifc
    /\ env_ListenPacket sampleOpenEnv ifc 2048 true = Ok rawConn
    /\ forall b,
        fst (RawUDPConn_ReadFrom
               (Unicast (mkUnicastRawUDPConn
                           (mkBroadcastRawUDPConn [Frame ackFrame] bound68)))
               b)
        = fst (ReadFrom (mkBroadcastRawUDPConn rawConn bound68) b).
Proof.
  exact (NewRawUDPConn_reads_alike sampleOpenEnv "eth0" bound68 UDPUnicast _
           eq_refl).
Defined.

(** X16. The type decides the write path, and only [UDPUnicast] selects
    resolution: on a connection made with [UDPUnicast], every write goes
    to the address [getHwAddr] returned for the destination IP; on one
    made with any other type value, [WriteTo] calls nothing but one write
    to the broadcast address. *)
Theorem NewRawUDPConn_write_mode :
  forall oenv iface bound typ c,
    fst (NewRawUDPConn oenv iface bound typ) = Ok c ->
    forall (framer : Framer) env b addr,
      let calls := snd (run (RawUDPConn_WriteTo framer env c b addr)) in
      if typ =? UDPUnicast
      then forall packet hw,
          In (EvWriteTo packet hw) calls ->
          exists udpAddr,
            addr = Some (AddrUDP udpAddr)
            /\ fst (run (getHwAddr env (IP udpAddr))) = Ok hw
      else calls = []
           \/ exists packet, calls = [EvWriteTo packet BroadcastMac].
Proof.
  intros oenv iface bound typ c H framer env b addr calls.
  destruct (NewRawUDPConn_ok _ _ _ _ _ H) as (ifc & rawConn & _ & _ & Hc).
  destruct (typ =? UDPUnicast); subst c; unfold calls;
    cbn [RawUDPConn_WriteTo].
  - intros packet hw Hin.
    destruct (Unicast_WriteTo_write framer env _ b addr packet hw Hin)
      as (udpAddr & -> & _ & Hres).
    exists udpAddr. auto.
  - destruct (Broadcast_WriteTo_run framer env
                (mkBroadcastRawUDPConn rawConn bound) b addr)
      as [Hr|[Hr|(udpAddr & packet & _ & _ & Hr)]]; rewrite Hr; cbn [snd].
    + now left.
    + now left.
    + right. exists packet. reflexivity.
Qed.

Lemma NewRawUDPConn_write_mode_witness :
  snd (run (RawUDPConn_WriteTo udp4pkt envNeighbour
              (Broadcast (mkBroadcastRawUDPConn [Frame ackFrame] bound68))
              payload4 (Some (AddrUDP (mkUDPAddr ip_10_0_0_5 67))))) = []
  \/ exists packet,
      snd (run (RawUDPConn_WriteTo udp4pkt envNeighbour
                  (Broadcast (mkBroadcastRawUDPConn [Frame ackFrame] bound68))
                  payload4 (Some (AddrUDP (mkUDPAddr ip_10_0_0_5 67)))))
      = [EvWriteTo packet BroadcastMac].
Proof.
  exact (NewRawUDPConn_write_mode sampleOpenEnv "eth0" bound68 7 _ eq_refl
           udp4pkt envNeighbour payload4
           (Some (AddrUDP (mkUDPAddr ip_10_0_0_5 67)))).
Defined.

(** X17. [NewRawUDPConn] fails exactly when the interface lookup or the
    opening of the raw socket fails, and returns that error; when the
    interface is not found no socket is opened. *)
Theorem NewRawUDPConn_failure :
  forall oenv iface addr typ e,
    fst (NewRawUDPConn oenv iface addr typ) = Err e <->
    (env_InterfaceByName oenv iface = Err e
     /\ snd (NewRawUDPConn oenv iface addr typ) = [EvInterfaceByName iface])
    \/ (exists ifc,
           env_InterfaceByName oenv iface = Ok ifc
           /\ env_ListenPacket oenv ifc EtherTypeIPv4 true = Err e).
Proof.
  intros oenv iface addr typ e. unfold NewRawUDPConn.
  destruct (env_InterfaceByName oenv iface) as [ifc|e0].
  - destruct (env_ListenPacket oenv ifc EtherTypeIPv4 true) as [rawConn|e1]
      eqn:Hl.
    + split.
      * destruct (typ =? UDPUnicast); discriminate.
      * intros [[H _]|(ifc' & [= <-] & H)]; [discriminate|].
        rewrite Hl in H. discriminate.
    + cbn [fst]. split.
      * intros [= ->]. right. exists ifc. auto.
      * intros [[H _]|(ifc' & [= <-] & H)]; [discriminate|].
        rewrite Hl in H. now injection H as ->.
  - cbn [fst snd]. split.
    + intros [= ->]. left. auto.
    + intros [[[= ->] _]|(ifc & H & _)]; [reflexivity|discriminate].
Qed.

Lemma NewRawUDPConn_failure_witness :
  env_InterfaceByName sampleOpenEnv "wlan9"
  = Err (ErrExternal "no such network interface")
  /\ snd (NewRawUDPConn sampleOpenEnv "wlan9" bound68 UDPUnicast)
     = [EvInterfaceByName "wlan9"].
Proof.
  destruct (proj1 (NewRawUDPConn_failure sampleOpenEnv "wlan9" bound68
                     UDPUnicast (ErrExternal "no such network interface"))
              eq_refl) as [H|(ifc & H & _)].
  - exact H.
  - discriminate H.
Defined.

(** ** Further properties of udpMatch *)

Lemma bytes_Equal_refl a : bytes_Equal a a = true.
Proof.
  induction a as [|x a IH]; [reflexivity|].
  cbn [bytes_Equal]. rewrite IH, andb_true_r. now apply Byte.byte_dec_lb.
Qed.

(** With a bound address set, [udpMatch] accepts a destination exactly
    when the ports are equal and the bound IP is nil or [Equal] to the
    destination IP. *)
Lemma udpMatch_accepts_iff :
  forall addr bnd,
    udpMatch addr (Some bnd) = true <->
    Port bnd = Port addr
    /\ (IP bnd = None \/ IP_Equal (IP bnd) (IP addr) = true).
Proof.
  intros addr bnd. unfold udpMatch.
  destruct (IP bnd) as [ip|] eqn:Hip; cbn [andb].
  - destruct (IP_Equal (Some ip) (IP addr)); cbn [negb].
    + rewrite Z.eqb_eq. split; [auto|tauto].
    + split; [discriminate|]. intros [_ [H|H]]; discriminate.
  - rewrite Z.eqb_eq. split; [auto|tauto].
Qed.

(** X18. A bound IPv4 address given in its 16-byte form matches the
    4-byte destination address that [ReadFrom] takes from the IP header,
    and only on the bound port. *)
Theorem udpMatch_accepts_16_byte_form :
  forall a port dstPort,
    length a = 4%nat ->
    udpMatch (mkUDPAddr (Some a) dstPort)
      (Some (mkUDPAddr (Some (v4InV6Prefix ++ a)) port))
    = (port =? dstPort).
Proof.
  intros a port dstPort Hlen. unfold udpMatch, IP_Equal.
  cbn [IP Port ip_bytes andb].
  rewrite length_app, Hlen. cbn [length v4InV6Prefix Nat.add Nat.eqb andb].
  change (firstn 12 (v4InV6Prefix ++ a)) with v4InV6Prefix.
  change (skipn 12 (v4InV6Prefix ++ a)) with a.
  change (bytes_Equal v4InV6Prefix v4InV6Prefix) with true.
  rewrite bytes_Equal_refl. reflexivity.
Qed.

Lemma udpMatch_accepts_16_byte_form_witness :
  udpMatch (mkUDPAddr ip_10_0_0_5 68) (Some (mkUDPAddr ip16_10_0_0_5 68))
  = (68 =? 68).
Proof.
  exact (udpMatch_accepts_16_byte_form [x0a; x00; x00; x05] 68 68 eq_refl).
Defined.
